(** * PicoW NeoPixel Home Assistant integration

    A shallow embedding of the parts of the integration that carry its
    behaviour: the light entity's state-reading properties and its
    turn-on command (light.py), the polling data coordinator
    (coordinator.py) and the batching loop of the HTTP discovery scan
    (config_flow.py).

    Python objects obtained from [response.json()] are modelled by the
    type [json]; Python floats are IEEE-754 binary64 numbers, modelled by
    the standard library's [spec_float] with precision 53 and maximal
    exponent 1024; fallible code returns [result], which is either a value
    or a raised exception. *)

From Stdlib Require Import ZArith List String Bool Lia.
From Stdlib Require Import DecimalString QArith Lqa.
From Stdlib Require Import Floats.SpecFloat.
Import ListNotations.

Set Warnings "-register-all".

Local Open Scope Z_scope.
Local Open Scope string_scope.

(* ================================================================= *)
(** ** Python values, exceptions and the operations the code uses *)

Module Py.

(** The exception classes that occur.  [UpdateFailed] keeps the
    exception it was raised [from] (its [__cause__]); message texts are
    left out.  A JSON decoding error is a [ValueError], aiohttp's
    content-type error is a [ClientError]. *)
Inductive exn : Type :=
| KeyError
| TypeError
| ValueError
| OverflowError
| AttributeError
| ZeroDivisionError
| TimeoutError
| ClientError
| UpdateFailed (cause : option exn).

Inductive result (A : Type) : Type :=
| Ok (a : A)
| Raise (e : exn).
Arguments Ok {A} a.
Arguments Raise {A} e.

Definition bind {A B : Type} (r : result A) (k : A -> result B) : result B :=
  match r with
  | Ok a => k a
  | Raise e => Raise e
  end.

(** [try r except (classes) : handler] *)
Definition try_except {A : Type} (r : result A) (classes : exn -> bool)
    (handler : exn -> result A) : result A :=
  match r with
  | Ok a => Ok a
  | Raise e => if classes e then handler e else Raise e
  end.

Definition is_ok {A : Type} (r : result A) : bool :=
  match r with Ok _ => true | Raise _ => false end.

(** What [json.loads] produces: [None], [bool], [int], [float], [str],
    [list] and [dict] with string keys (an association list, looked up
    from the front). *)
Inductive json : Type :=
| JNull
| JBool (b : bool)
| JInt (n : Z)
| JFloat (f : spec_float)
| JStr (s : string)
| JList (l : list json)
| JDict (kvs : list (string * json)).

Fixpoint assoc {A : Type} (k : string) (kvs : list (string * A)) : option A :=
  match kvs with
  | [] => None
  | (k', v) :: rest => if String.eqb k k' then Some v else assoc k rest
  end.

(** [d[k] = v] on a dict: replaces the value of an existing key in
    place, appends a new key at the end. *)
Fixpoint setitem {A : Type} (k : string) (v : A) (kvs : list (string * A))
    : list (string * A) :=
  match kvs with
  | [] => [(k, v)]
  | (k', v') :: rest =>
      if String.eqb k k' then (k', v) :: rest else (k', v') :: setitem k v rest
  end.

(** [v == s] for a string literal [s]. *)
Definition eq_str (v : json) (s : string) : bool :=
  match v with
  | JStr t => String.eqb t s
  | _ => false
  end.

(** [v[k]] for a string key [k]: a dict answers or raises [KeyError];
    [None], numbers and booleans are not subscriptable, and strings and
    lists take integer indices only: all of these raise [TypeError]. *)
Definition getitem (v : json) (k : string) : result json :=
  match v with
  | JDict kvs =>
      match assoc k kvs with
      | Some x => Ok x
      | None => Raise KeyError
      end
  | _ => Raise TypeError
  end.

(** [k in v] for a string [k]: key membership on a dict, element
    membership on a list, substring search on a string, [TypeError] on
    values that are not containers. *)
Definition contains (k : string) (v : json) : result bool :=
  match v with
  | JDict kvs => Ok (match assoc k kvs with Some _ => true | None => false end)
  | JList l => Ok (existsb (fun x => eq_str x k) l)
  | JStr s => Ok (match String.index 0 k s with Some _ => true | None => false end)
  | _ => Raise TypeError
  end.

(** [v.get(k, default)]: only a dict has the method. *)
Definition get (v : json) (k : string) (default : json) : result json :=
  match v with
  | JDict kvs =>
      Ok (match assoc k kvs with Some x => x | None => default end)
  | _ => Raise AttributeError
  end.

(** *** Floats *)

Definition prec : Z := 53.
Definition emax : Z := 1024.

(** An [int] as the float of the same value (exact below 2^53). *)
Definition Z2SF (n : Z) : spec_float :=
  match n with
  | Z0 => S754_zero false
  | Zpos p => S754_finite false p 0
  | Zneg p => S754_finite true p 0
  end.

Definition is_infinity (f : spec_float) : bool :=
  match f with S754_infinity _ => true | _ => false end.

(** [v / d] for an [int] literal [d].  [int / int] is the correctly
    rounded quotient and raises [OverflowError] when it is too large for
    a float; [bool] is an [int]; [float / int] follows IEEE-754 and
    raises only for a zero divisor; everything else JSON can hold raises
    [TypeError]. *)
Definition truediv (v : json) (d : Z) : result spec_float :=
  let int_div (n : Z) :=
    if Z.eqb d 0 then Raise ZeroDivisionError
    else
      let q := SFdiv prec emax (Z2SF n) (Z2SF d) in
      if is_infinity q then Raise OverflowError else Ok q in
  match v with
  | JInt n => int_div n
  | JBool b => int_div (if b then 1 else 0)
  | JFloat f =>
      if Z.eqb d 0 then Raise ZeroDivisionError
      else Ok (SFdiv prec emax f (Z2SF d))
  | _ => Raise TypeError
  end.

(** [f * k] for a float [f] and an [int] literal [k]. *)
Definition mul_int (f : spec_float) (k : Z) : spec_float :=
  SFmul prec emax f (Z2SF k).

(** [int(f)]: truncation toward zero; [ValueError] on NaN,
    [OverflowError] on an infinity. *)
Definition int_of_float (f : spec_float) : result Z :=
  match f with
  | S754_zero _ => Ok 0
  | S754_nan => Raise ValueError
  | S754_infinity _ => Raise OverflowError
  | S754_finite s m e =>
      let a := Z.shiftl (Zpos m) e in
      Ok (if s then - a else a)
  end.

(** [range(n)] *)
Definition zrange (n : nat) : list Z := map Z.of_nat (seq 0 n).

End Py.

Notation "x <- c1 ;; c2" := (Py.bind c1 (fun x => c2))
  (at level 61, c1 at next level, right associativity).

(* ================================================================= *)
(** ** const.py *)

Module Const.

Definition DEFAULT_SCAN_INTERVAL : Z := 10.
Definition DEFAULT_PORT : Z := 80.
Definition API_STATE : string := "/state".
Definition API_INFO : string := "/info".
Definition API_CONTROL : string := "/control".
Definition EFFECT_STATIC : string := "static".

End Const.

(* ================================================================= *)
(** ** light.py *)

Module Light.
Import Py.

Definition KeyError_TypeError (e : exn) : bool :=
  match e with KeyError | TypeError => true | _ => false end.

Definition KeyError_TypeError_ValueError (e : exn) : bool :=
  match e with KeyError | TypeError | ValueError => true | _ => false end.

(** The properties read [self.coordinator.data], passed here as [data]. *)

Definition is_on (data : json) : result json :=
  try_except
    (state <- getitem data "state" ;;
     getitem state "is_on")
    KeyError_TypeError
    (fun _ => Ok (JBool false)).

(** [int((brightness_percent / 100) * 255)] *)
Definition percent_to_255 (brightness_percent : json) : result Z :=
  q <- truediv brightness_percent 100 ;;
  int_of_float (mul_int q 255).

Definition brightness (data : json) : result json :=
  try_except
    (state <- getitem data "state" ;;
     brightness_percent <- getitem state "brightness" ;;
     n <- percent_to_255 brightness_percent ;;
     Ok (JInt n))
    KeyError_TypeError_ValueError
    (fun _ => Ok (JInt 255)).

Definition rgb_color (data : json) : result (json * json * json) :=
  try_except
    (state <- getitem data "state" ;;
     color <- getitem state "color" ;;
     r <- getitem color "r" ;;
     g <- getitem color "g" ;;
     b <- getitem color "b" ;;
     Ok (r, g, b))
    KeyError_TypeError
    (fun _ => Ok (JInt 255, JInt 255, JInt 255)).

Definition effect (data : json) : result json :=
  try_except
    (state <- getitem data "state" ;;
     effect <- getitem state "effect" ;;
     Ok (if negb (eq_str effect Const.EFFECT_STATIC) then effect else JNull))
    KeyError_TypeError
    (fun _ => Ok JNull).

(** The keyword arguments of [async_turn_on] that the method looks at. *)
Record kwargs : Type := {
  kw_brightness : option Z;
  kw_rgb_color : option (Z * Z * Z);
  kw_effect : option string
}.

(** [max(1, int((brightness / 255) * 100))] *)
Definition brightness_to_device (brightness : Z) : result Z :=
  q <- truediv (JInt brightness) 255 ;;
  brightness_percent <- int_of_float (mul_int q 100) ;;
  Ok (Z.max 1 brightness_percent).

(** The command [async_turn_on] hands to [async_send_command]. *)
Definition turn_on_command (kw : kwargs) : result (list (string * json)) :=
  let command := [("power", JStr "on")] in
  command <-
    match kw_brightness kw with
    | Some b =>
        p <- brightness_to_device b ;;
        Ok (setitem "brightness" (JInt p) command)
    | None => Ok command
    end ;;
  let command :=
    match kw_rgb_color kw with
    | Some (r, g, b) =>
        setitem "color" (JDict [("r", JInt r); ("g", JInt g); ("b", JInt b)]) command
    | None => command
    end in
  let command :=
    match kw_effect kw with
    | Some e => setitem "speed" (JInt 50) (setitem "effect" (JStr e) command)
    | None => command
    end in
  Ok command.

Definition turn_off_command : list (string * json) := [("power", JStr "off")].

End Light.

(* ================================================================= *)
(** ** coordinator.py *)

Module Coordinator.
Import Py.

(** One HTTP exchange as the client sees it: the request timed out
    ([asyncio.TimeoutError]), the transport failed
    ([aiohttp.ClientError]), or a response arrived with a status and a
    body; [body] is what [await response.json()] evaluates to, a parsed
    value or the exception the parser raises. *)
Inductive http_outcome : Type :=
| TimedOut
| TransportError
| Response (status : Z) (body : result json).

Inductive request : Type :=
| GET (url : string)
| POST (url : string) (payload : json).

(** The device and the network between, for the duration of one
    operation. *)
Definition session : Type := request -> http_outcome.

(** The coordinator's own fields, and [data], the cache the base class
    [DataUpdateCoordinator] keeps ([JNull] is Python's [None], the value
    before the first successful refresh). *)
Record coordinator : Type := {
  host : string;
  port : Z;
  data : json;
  _available : bool
}.

Definition set_available (c : coordinator) (b : bool) : coordinator :=
  {| host := host c; port := port c; data := data c; _available := b |}.

Definition set_data (c : coordinator) (d : json) : coordinator :=
  {| host := host c; port := port c; data := d; _available := _available c |}.

(** [entry.data[CONF_HOST]], [entry.data.get(CONF_PORT, DEFAULT_PORT)] *)
Definition __init__ (conf_host : string) (conf_port : option Z) : coordinator :=
  {| host := conf_host;
     port := match conf_port with Some p => p | None => Const.DEFAULT_PORT end;
     data := JNull;
     _available := true |}.

Definition string_of_Z (n : Z) : string := NilZero.string_of_int (Z.to_int n).

Definition base_url (c : coordinator) : string :=
  "http://" ++ host c ++ ":" ++ string_of_Z (port c).

Definition _get_state (c : coordinator) (io : session) : result json :=
  let url := base_url c ++ Const.API_STATE in
  match io (GET url) with
  | TimedOut => Raise TimeoutError
  | TransportError => Raise ClientError
  | Response status body =>
      if negb (Z.eqb status 200) then Raise (UpdateFailed None) else body
  end.

Definition _get_info (c : coordinator) (io : session) : result json :=
  let url := base_url c ++ Const.API_INFO in
  match io (GET url) with
  | TimedOut => Raise TimeoutError
  | TransportError => Raise ClientError
  | Response status body =>
      if negb (Z.eqb status 200) then Raise (UpdateFailed None) else body
  end.

(** Returns the coordinator as the call leaves it, and what the call
    returns or raises. *)
Definition _async_update_data (c : coordinator) (io : session)
    : coordinator * result json :=
  match (state <- _get_state c io ;;
         info <- _get_info c io ;;
         Ok (state, info)) with
  | Ok (state, info) =>
      (set_available c true, Ok (JDict [("state", state); ("info", info)]))
  | Raise TimeoutError =>
      (set_available c false, Raise (UpdateFailed (Some TimeoutError)))
  | Raise ClientError =>
      (set_available c false, Raise (UpdateFailed (Some ClientError)))
  | Raise err =>
      (set_available c false, Raise (UpdateFailed (Some err)))
  end.

(** The two methods of Home Assistant's [DataUpdateCoordinator] that
    write the cache.  [async_set_updated_data] stores the value it is
    given; a refresh stores what [_async_update_data] returns and leaves
    the cache alone when it raises. *)
Definition async_set_updated_data (c : coordinator) (d : json) : coordinator :=
  set_data c d.

Definition async_refresh (c : coordinator) (io : session)
    : coordinator * result unit :=
  match _async_update_data c io with
  | (c', Ok d) => (set_data c' d, Ok tt)
  | (c', Raise e) => (c', Raise e)
  end.

Definition async_send_command (c : coordinator) (command : json) (io : session)
    : coordinator * result json :=
  let url := base_url c ++ Const.API_CONTROL in
  let attempt : coordinator * result json :=
    match io (POST url command) with
    | TimedOut => (c, Raise TimeoutError)
    | TransportError => (c, Raise ClientError)
    | Response status body =>
        if negb (Z.eqb status 200) then (c, Raise (UpdateFailed None))
        else
          match body with
          | Raise e => (c, Raise e)
          | Ok result =>
              match contains "state" result with
              | Raise e => (c, Raise e)
              | Ok false => (c, Ok result)
              | Ok true =>
                  match (state <- getitem result "state" ;;
                         info <- get (data c) "info" (JDict []) ;;
                         Ok (JDict [("state", state); ("info", info)])) with
                  | Raise e => (c, Raise e)
                  | Ok d => (async_set_updated_data c d, Ok result)
                  end
              end
          end
    end in
  match attempt with
  | (c', Ok result) => (c', Ok result)
  | (c', Raise TimeoutError) => (c', Raise (UpdateFailed (Some TimeoutError)))
  | (c', Raise ClientError) => (c', Raise (UpdateFailed (Some ClientError)))
  | (c', Raise err) => (c', Raise (UpdateFailed (Some err)))
  end.

(** The [available] property. *)
Definition available (c : coordinator) : bool := _available c.

(** *** Sequences of operations *)

Inductive op : Type :=
| Poll (io : session)
| Command (command : json) (io : session).

Definition is_poll (o : op) : bool :=
  match o with Poll _ => true | Command _ _ => false end.

(** One operation: the coordinator afterwards and whether the
    communication attempt succeeded (returned rather than raised). *)
Definition step (c : coordinator) (o : op) : coordinator * bool :=
  match o with
  | Poll io => let (c', r) := async_refresh c io in (c', is_ok r)
  | Command command io => let (c', r) := async_send_command c command io in (c', is_ok r)
  end.

(** What a run remembers besides the coordinator: the outcome of the
    most recent attempt of any kind and of the most recent poll, [None]
    while there has been none. *)
Record history : Type := {
  last_attempt : option bool;
  last_poll : option bool
}.

Definition no_history : history := {| last_attempt := None; last_poll := None |}.

Definition record_outcome (h : history) (o : op) (ok : bool) : history :=
  {| last_attempt := Some ok;
     last_poll := if is_poll o then Some ok else last_poll h |}.

Fixpoint run (c : coordinator) (h : history) (ops : list op)
    : coordinator * history :=
  match ops with
  | [] => (c, h)
  | o :: rest =>
      let (c', ok) := step c o in
      run c' (record_outcome h o ok) rest
  end.

(** A fetch of the poll cycle succeeded: a response arrived with status
    200 and a body that parses. *)
Definition fetch_ok (o : http_outcome) : bool :=
  match o with
  | Response status (Ok _) => Z.eqb status 200
  | _ => false
  end.

(** The exchange of a command failed: timeout, transport error, a
    status other than 200, or a body that does not parse. *)
Definition exchange_failed (o : http_outcome) : bool := negb (fetch_ok o).

(** The flag the [available] property reports, in terms of the history:
    the outcome of the most recent poll, [True] before the first. *)
Definition expected_available (h : history) : bool :=
  match last_poll h with
  | Some ok => ok
  | None => true
  end.

(** The cache holds a snapshot as the two writers build it. *)
Definition is_snapshot (d : json) : Prop :=
  exists state info, d = JDict [("state", state); ("info", info)].

End Coordinator.

(* ================================================================= *)
(** ** config_flow.py: the batching loop of [_discover_devices_http] *)

Module Discovery.

Local Open Scope Q_scope.

Definition SCAN_TIMEOUT : Q := 3 # 2.
Definition MAX_PARALLEL_SCANS : nat := 30.
Definition DISCOVERY_TIMEOUT : Q := 60.

Definition Qlt_bool (x y : Q) : bool := negb (Qle_bool y x).

(** The dict [_scan_ip] returns for a device that answered. *)
Record scan_result : Type := {
  ip : string;
  port : Z;
  device_id : string;
  name : string
}.

(** A value of [self.discovered_devices]. *)
Record device_entry : Type := {
  conf_host : string;
  conf_port : Z;
  conf_name : string
}.

(** One batch of probes handed to [asyncio.gather]: the clock reading
    taken just before (the one [elapsed] was computed from), the timeout
    of the enclosing [asyncio.wait_for] if there is one, and the
    addresses probed. *)
Record event : Type := {
  reading : nat;
  timeout : option Q;
  batch : list string
}.

(** The local variables of the scan and the trace of batches awaited,
    oldest first.  [reads] counts the calls of the event loop's [time()]
    made so far. *)
Record scan_state : Type := {
  reads : nat;
  scan_tasks : list string;
  discovered_devices : list (string * device_entry);
  trace : list event
}.

Section Scan.

(** The environment of one scan: [clock n] is what the [n]-th call of
    [time()] returns (call 0 gives [start_time]); [_scan_ip n ip port] is
    what the probe of [ip] evaluates to when its batch is awaited after
    reading [n] ([None], or the dict of the device found);
    [completes_within t ips] tells whether the final batch finishes
    before [wait_for]'s timeout [t]. *)
Variable clock : nat -> Q.
Variable _scan_ip : nat -> string -> Z -> option scan_result.
Variable completes_within : Q -> list string -> bool.
Variable local_ips : list string.

Definition elapsed_at (n : nat) : Q := clock n - clock 0.

(** [elapsed = asyncio.get_event_loop().time() - start_time] *)
Definition read_elapsed (s : scan_state) : Q * scan_state :=
  (elapsed_at (reads s),
   {| reads := S (reads s);
      scan_tasks := scan_tasks s;
      discovered_devices := discovered_devices s;
      trace := trace s |}).

Definition append_task (s : scan_state) (ip_str : string) : scan_state :=
  {| reads := reads s;
     scan_tasks := scan_tasks s ++ [ip_str];
     discovered_devices := discovered_devices s;
     trace := trace s |}.

(** The loop over [results]: a later result for a known identity
    overwrites the entry. *)
Definition record_results (results : list (option scan_result))
    (devices : list (string * device_entry)) : list (string * device_entry) :=
  fold_left
    (fun devices result =>
       match result with
       | Some r =>
           Py.setitem (device_id r)
             {| conf_host := ip r; conf_port := port r; conf_name := name r |}
             devices
       | None => devices
       end)
    results devices.

Definition gather (n : nat) (ips : list string) : list (option scan_result) :=
  map (fun ip_str => _scan_ip n ip_str Const.DEFAULT_PORT) ips.

(** A full batch inside the loop: [await asyncio.gather(...)], the
    results recorded, [scan_tasks = []]. *)
Definition await_batch (s : scan_state) : scan_state :=
  let n := pred (reads s) in
  {| reads := reads s;
     scan_tasks := [];
     discovered_devices :=
       record_results (gather n (scan_tasks s)) (discovered_devices s);
     trace := trace s ++ [{| reading := n; timeout := None; batch := scan_tasks s |}] |}.

(** Every batch awaited so far was started at a reading within the
    deadline, and without a timeout of its own. *)
Definition full_batches (s : scan_state) : Prop :=
  forall ev, In ev (trace s) ->
    elapsed_at (reading ev) <= DISCOVERY_TIMEOUT /\ timeout ev = None.

(** The inner loop, [for ip in network_obj.hosts()].  Its [break] leaves
    this loop only, with [scan_tasks] as it is. *)
Fixpoint scan_hosts (hosts : list string) (s : scan_state) : scan_state :=
  match hosts with
  | [] => s
  | ip_str :: rest =>
      let s :=
        if existsb (String.eqb ip_str) local_ips then s
        else append_task s ip_str in
      if (MAX_PARALLEL_SCANS <=? List.length (scan_tasks s))%nat then
        let (elapsed, s) := read_elapsed s in
        if Qlt_bool DISCOVERY_TIMEOUT elapsed then s
        else scan_hosts rest (await_batch s)
      else scan_hosts rest s
  end.

(** The outer loop, [for network_obj in networks_to_scan]. *)
Fixpoint scan_networks (networks : list (list string)) (s : scan_state)
    : scan_state :=
  match networks with
  | [] => s
  | hosts :: rest =>
      let (elapsed, s) := read_elapsed s in
      if Qlt_bool DISCOVERY_TIMEOUT elapsed then s
      else scan_networks rest (scan_hosts hosts s)
  end.

(** "Process remaining tasks": the last batch goes through
    [asyncio.wait_for] with the time that is left; when that times out
    nothing is recorded. *)
Definition process_remaining (s : scan_state) : scan_state :=
  match scan_tasks s with
  | [] => s
  | _ :: _ =>
      let (elapsed, s) := read_elapsed s in
      let remaining_time := DISCOVERY_TIMEOUT - elapsed in
      if Qlt_bool 0 remaining_time then
        let n := pred (reads s) in
        let ev := {| reading := n; timeout := Some remaining_time;
                     batch := scan_tasks s |} in
        {| reads := reads s;
           scan_tasks := scan_tasks s;
           discovered_devices :=
             if completes_within remaining_time (scan_tasks s)
             then record_results (gather n (scan_tasks s)) (discovered_devices s)
             else discovered_devices s;
           trace := trace s ++ [ev] |}
      else s
  end.

(** The state after [start_time] is read. *)
Definition scan_start : scan_state :=
  {| reads := 1; scan_tasks := []; discovered_devices := []; trace := [] |}.

(** The scan from the point where [networks_to_scan] is known: return at
    once when it is empty, otherwise the two loops, the remaining tasks
    and the reading of [total_time] for the log. *)
Definition _discover_devices_http (networks_to_scan : list (list string))
    : scan_state :=
  match networks_to_scan with
  | [] => scan_start
  | _ :: _ =>
      let s := process_remaining (scan_networks networks_to_scan scan_start) in
      snd (read_elapsed s)
  end.

End Scan.

(** A /26-sized network for concrete runs: the 34 addresses
    10.0.0.1 ... 10.0.0.34. *)
Definition sample_hosts : list string :=
  map (fun n => "10.0.0." ++ Coordinator.string_of_Z (n + 1)) (Py.zrange 34).

(** A clock that advances by [step] seconds from one reading to the
    next. *)
Definition ticking (step : Q) (n : nat) : Q := inject_Z (Z.of_nat n) * step.

End Discovery.

(* ================================================================= *)
(** ** The conversions as the documentation words them *)

Module Documented.

(** The nearest integer to [n / d] for positive [d], ties to the even
    neighbour, as Python's [round] does. *)
Definition round_div (n d : Z) : Z :=
  let q := n / d in
  let r := n mod d in
  if (2 * r <? d)%Z then q
  else if (d <? 2 * r)%Z then q + 1
  else if Z.even q then q else q + 1.

(** [round(value/255*100)] and [round(value/100*255)] *)
Definition to_device (value : Z) : Z := round_div (value * 100) 255.
Definition to_percent (value : Z) : Z := round_div (value * 255) 100.

End Documented.

(* ================================================================= *)
(** ** More of Python's built-in behaviour *)

Module Builtins.
Import Py.

(** The truth value of a parsed JSON value, as [if v:] and [and] test
    it: [None], [False], zero, and the empty string, list and dict are
    false. *)
Definition truthy (v : json) : bool :=
  match v with
  | JNull => false
  | JBool b => b
  | JInt n => negb (Z.eqb n 0)
  | JFloat (S754_zero _) => false
  | JFloat _ => true
  | JStr s => negb (String.eqb s "")
  | JList l => match l with [] => false | _ :: _ => true end
  | JDict kvs => match kvs with [] => false | _ :: _ => true end
  end.

(** [v is None] *)
Definition is_none (v : json) : bool :=
  match v with JNull => true | _ => false end.

(** The dict without the key [k]. *)
Definition remove {A : Type} (k : string) (kvs : list (string * A))
    : list (string * A) :=
  filter (fun kv => negb (String.eqb k (fst kv))) kvs.

(** [d.pop(k)]: the value and the dict left, [KeyError] for a missing
    key. *)
Definition pop {A : Type} (k : string) (kvs : list (string * A))
    : result (A * list (string * A)) :=
  match assoc k kvs with
  | Some v => Ok (v, remove k kvs)
  | None => Raise KeyError
  end.

(** [s.startswith(prefix)] *)
Definition startswith (s prefix : string) : bool := String.prefix prefix s.

End Builtins.

(* ================================================================= *)
(** ** light.py: the remaining members of the entity *)

Module LightEntity.
Import Py Builtins Coordinator.

Definition extra_state_attributes (data : json) : result (list (string * json)) :=
  try_except
    (info <- get data "info" (JDict []) ;;
     capabilities <- get info "capabilities" (JDict []) ;;
     device <- get info "device" (JDict []) ;;
     device_id <- get device "id" JNull ;;
     ip_address <- get device "ip" JNull ;;
     mac_address <- get device "mac" JNull ;;
     num_leds <- get capabilities "num_leds" JNull ;;
     let attributes :=
       [("device_id", device_id); ("ip_address", ip_address);
        ("mac_address", mac_address); ("num_leds", num_leds)] in
     Ok (filter (fun kv => negb (is_none (snd kv))) attributes))
    Light.KeyError_TypeError
    (fun _ => Ok []).

(** What an attribute shows for the field [k] of [kvs]: nothing when
    the field is missing or [None]. *)
Definition shown (k : string) (kvs : list (string * json)) : option json :=
  match assoc k kvs with
  | Some v => if is_none v then None else Some v
  | None => None
  end.

(** [async_turn_on]: the command is built before the [try]; whatever
    [async_send_command] raises is logged and raised again. *)
Definition async_turn_on (c : coordinator) (kw : Light.kwargs) (io : session)
    : coordinator * result unit :=
  match Light.turn_on_command kw with
  | Raise e => (c, Raise e)
  | Ok command =>
      match async_send_command c (JDict command) io with
      | (c', Ok _) => (c', Ok tt)
      | (c', Raise err) => (c', Raise err)
      end
  end.

Definition async_turn_off (c : coordinator) (io : session)
    : coordinator * result unit :=
  match async_send_command c (JDict Light.turn_off_command) io with
  | (c', Ok _) => (c', Ok tt)
  | (c', Raise err) => (c', Raise err)
  end.

End LightEntity.

(* ================================================================= *)
(** ** coordinator.py: what a run of operations went through *)

Module CoordinatorRuns.
Import Py Coordinator.

(** The success of each operation of a run, in order. *)
Fixpoint outcomes (c : coordinator) (ops : list op) : list bool :=
  match ops with
  | [] => []
  | o :: rest => let (c', ok) := step c o in ok :: outcomes c' rest
  end.

(** Some poll of the run succeeded. *)
Definition some_poll_succeeded (c : coordinator) (ops : list op) : bool :=
  existsb (fun p => is_poll (fst p) && snd p) (combine ops (outcomes c ops)).

Definition only_commands (ops : list op) : bool :=
  forallb (fun o => negb (is_poll o)) ops.

End CoordinatorRuns.

(* ================================================================= *)
(** ** __init__.py *)

Module Setup.
Import Py Builtins Coordinator.

(** [hass.data.get(DOMAIN)]: the coordinators by entry id, [None] while
    the key [DOMAIN] is absent. *)
Definition hass_data : Type := option (list (string * coordinator)).

(** [hass.data[DOMAIN].get(id)], nothing also when [DOMAIN] is absent. *)
Definition registered (hass : hass_data) (id : string) : option coordinator :=
  match hass with
  | Some domain => assoc id domain
  | None => None
  end.

(** The fields of the config entry that are read. *)
Record config_entry : Type := {
  entry_id : string;
  entry_host : string;
  entry_port : option Z
}.

(** How [async_setup_entry] ends: it returns [True], or raises
    [ConfigEntryNotReady] from the failure of the first refresh. *)
Inductive setup_outcome : Type :=
| SetupDone
| ConfigEntryNotReady (cause : exn).

(** Home Assistant's [async_config_entry_first_refresh]: one refresh,
    whose failure is raised to the caller. *)
Definition async_config_entry_first_refresh (c : coordinator) (io : session)
    : coordinator * result unit :=
  async_refresh c io.

(** [async_setup_entry]; forwarding the entry to the light platform is
    left to the framework. *)
Definition async_setup_entry (hass : hass_data) (entry : config_entry)
    (io : session) : hass_data * setup_outcome :=
  let coordinator := __init__ (entry_host entry) (entry_port entry) in
  match async_config_entry_first_refresh coordinator io with
  | (_, Raise err) => (hass, ConfigEntryNotReady err)
  | (coordinator, Ok _) =>
      let domain := match hass with Some d => d | None => [] end in
      (Some (setitem (entry_id entry) coordinator domain), SetupDone)
  end.

(** [async_unload_entry]; [unload_ok] is what the framework's
    [async_unload_platforms] answers. *)
Definition async_unload_entry (hass : hass_data) (entry : config_entry)
    (unload_ok : bool) : hass_data * result bool :=
  if unload_ok then
    match hass with
    | None => (hass, Raise KeyError)
    | Some domain =>
        match pop (entry_id entry) domain with
        | Ok (_, rest) => (Some rest, Ok unload_ok)
        | Raise e => (hass, Raise e)
        end
    end
  else (hass, Ok unload_ok).

(** How [async_reload_entry] ends. *)
Inductive reload_outcome : Type :=
| Reloaded
| UnloadRaised (e : exn)
| ReloadNotReady (cause : exn).

Definition async_reload_entry (hass : hass_data) (entry : config_entry)
    (unload_ok : bool) (io : session) : hass_data * reload_outcome :=
  match async_unload_entry hass entry unload_ok with
  | (hass', Raise e) => (hass', UnloadRaised e)
  | (hass', Ok _) =>
      match async_setup_entry hass' entry io with
      | (hass'', SetupDone) => (hass'', Reloaded)
      | (hass'', ConfigEntryNotReady cause) => (hass'', ReloadNotReady cause)
      end
  end.

End Setup.

(* ================================================================= *)
(** ** config_flow.py: validation, the probe and the flow steps *)

Module ConfigFlow.
Import Py Builtins Coordinator.

Definition DEFAULT_NAME : string := "PicoW NeoPixel".
Definition ERROR_CANNOT_CONNECT : string := "cannot_connect".
Definition ERROR_UNKNOWN : string := "unknown".

(** The two exception classes the module defines. *)
Inductive flow_exn : Type :=
| CannotConnect
| UnknownError.

(** The input of [validate_input]: [data[CONF_HOST]] and
    [data.get(CONF_PORT)]. *)
Record connection : Type := {
  conn_host : string;
  conn_port : option Z
}.

(** The dict [validate_input] returns. *)
Record device_summary : Type := {
  title : json;
  device_id : json;
  capabilities : json
}.

(** The summary [validate_input] builds from a body and its device
    object. *)
Definition summary_of (kvs device : list (string * json)) : device_summary :=
  {| title := match assoc "name" device with Some v => v | None => JStr DEFAULT_NAME end;
     device_id := match assoc "id" device with Some v => v | None => JStr "unknown" end;
     capabilities := match assoc "capabilities" kvs with Some v => v | None => JDict [] end |}.

(** How the [try] block of [validate_input] ends: with its [return], with
    a built-in or library exception, or with the [CannotConnect] it
    raises itself. *)
Inductive attempt : Type :=
| Returned (info : device_summary)
| Threw (e : exn)
| ThrewCannotConnect.

Definition lift (r : result device_summary) : attempt :=
  match r with
  | Ok info => Returned info
  | Raise e => Threw e
  end.

Definition info_url (host : string) (port : Z) : string :=
  "http://" ++ host ++ ":" ++ string_of_Z port ++ "/info".

Definition try_block (o : http_outcome) : attempt :=
  match o with
  | TimedOut => Threw TimeoutError
  | TransportError => Threw ClientError
  | Response status body =>
      if negb (Z.eqb status 200) then ThrewCannotConnect
      else
        match body with
        | Raise e => Threw e
        | Ok info =>
            match contains "device" info with
            | Raise e => Threw e
            | Ok false => ThrewCannotConnect
            | Ok true =>
                lift
                  (device_info <- getitem info "device" ;;
                   title <- get device_info "name" (JStr DEFAULT_NAME) ;;
                   device_id <- get device_info "id" (JStr "unknown") ;;
                   capabilities <- get info "capabilities" (JDict []) ;;
                   Ok {| title := title; device_id := device_id;
                         capabilities := capabilities |})
            end
        end
  end.

(** [validate_input].  Every path through the body of its [while] loop
    returns or raises, so the first pass is the only one; the [except]
    clauses are tried in order, and [CannotConnect] raised inside the
    [try] is an [Exception] like any other. *)
Definition validate_input (data : connection) (io : session)
    : device_summary + flow_exn :=
  let host := conn_host data in
  let port := match conn_port data with Some p => p | None => Const.DEFAULT_PORT end in
  match try_block (io (GET (info_url host port))) with
  | Returned info => inl info
  | Threw TimeoutError => inr CannotConnect
  | Threw ClientError => inr CannotConnect
  | Threw _ => inr UnknownError
  | ThrewCannotConnect => inr UnknownError
  end.

(** [_scan_ip]: the dict for a device that answered, [None] otherwise;
    both [except] clauses end in [return None]. *)
Definition _scan_ip (io : session) (ip : string) (port : Z)
    : option (list (string * json)) :=
  let url := info_url ip port in
  let found : result (option (list (string * json))) :=
    match io (GET url) with
    | TimedOut => Raise TimeoutError
    | TransportError => Raise ClientError
    | Response status body =>
        if Z.eqb status 200 then
          info <- body ;;
          has_device <- contains "device" info ;;
          has_id <-
            (if has_device then
               device <- getitem info "device" ;;
               id <- get device "id" JNull ;;
               Ok (truthy id)
             else Ok false) ;;
          if has_id then
            device <- getitem info "device" ;;
            _ <- get device "name" JNull ;;
            device <- getitem info "device" ;;
            id <- getitem device "id" ;;
            device <- getitem info "device" ;;
            name <- get device "name" (JStr DEFAULT_NAME) ;;
            Ok (Some [("ip", JStr ip); ("port", JInt port);
                      ("device_id", id); ("name", name)])
          else Ok None
        else Ok None
    end in
  match found with
  | Ok r => r
  | Raise _ => None
  end.

(** The dict [_scan_ip] returns for the device object [device] with the
    identity [id]. *)
Definition found_device (ip : string) (port : Z) (id : json)
    (device : list (string * json)) : list (string * json) :=
  [("ip", JStr ip); ("port", JInt port); ("device_id", id);
   ("name", match assoc "name" device with Some v => v | None => JStr DEFAULT_NAME end)].

(** The flow object's fields. *)
Record flow : Type := {
  discovered_devices : list (string * Discovery.device_entry);
  _discovery_done : bool
}.

(** What a step hands back to the flow manager. *)
Inductive flow_result : Type :=
| CreateEntry (title : json) (data : list (string * json))
| ShowForm (step_id : string) (errors : list (string * string))
    (choices : list (string * string))
| ShowProgress (step_id : string)
| ShowProgressDone (next_step_id : string)
| AbortFlow (reason : string)
| StepRaised (e : exn).

Definition async_step_scan (fl : flow) : flow_result :=
  if negb (_discovery_done fl) then ShowProgress "scan"
  else
    match discovered_devices fl with
    | _ :: _ => ShowProgressDone "discovery"
    | [] => ShowProgressDone "manual"
    end.

Definition async_step_user (fl : flow) : flow_result := async_step_scan fl.

(** The entry both steps create; [configured] answers whether an entry
    with that unique id exists already, in which case the framework's
    [_abort_if_unique_id_configured] aborts the flow. *)
Definition create_entry (configured : json -> bool) (host : string)
    (port : option Z) (info : device_summary) : flow_result :=
  if configured (device_id info) then AbortFlow "already_configured"
  else
    CreateEntry (title info)
      [("host", JStr host);
       ("port", JInt (match port with Some p => p | None => Const.DEFAULT_PORT end));
       ("name", title info);
       ("device_id", device_id info)].

(** The data of the entry created for [host], [port] and a validated
    device. *)
Definition entry_data (host : string) (port : Z) (info : device_summary)
    : list (string * json) :=
  [("host", JStr host); ("port", JInt port); ("name", title info);
   ("device_id", device_id info)].

Definition async_step_manual (fl : flow) (user_input : option connection)
    (io : session) (configured : json -> bool) : flow_result :=
  let form errors := ShowForm "user" errors [] in
  match user_input with
  | Some ui =>
      match validate_input ui io with
      | inr CannotConnect => form [("base", ERROR_CANNOT_CONNECT)]
      | inr UnknownError => form [("base", ERROR_UNKNOWN)]
      | inl info => create_entry configured (conn_host ui) (conn_port ui) info
      end
  | None => form []
  end.

(** [user_input["device"]] is the identity chosen in the form. *)
Definition async_step_discovery (fl : flow) (user_input : option string)
    (io : session) (configured : json -> bool) : flow_result :=
  let show (errors : list (string * string)) :=
    let devices_list :=
      map (fun kv =>
             (fst kv,
              Discovery.conf_name (snd kv) ++ " (" ++ Discovery.conf_host (snd kv) ++ ")"))
          (discovered_devices fl) in
    match devices_list with
    | [] => async_step_user fl
    | _ :: _ => ShowForm "discovery" errors devices_list
    end in
  match user_input with
  | Some chosen =>
      match assoc chosen (discovered_devices fl) with
      | None => StepRaised KeyError
      | Some device =>
          let data := {| conn_host := Discovery.conf_host device;
                         conn_port := Some (Discovery.conf_port device) |} in
          match validate_input data io with
          | inr CannotConnect => show [("base", ERROR_CANNOT_CONNECT)]
          | inr UnknownError => show [("base", ERROR_UNKNOWN)]
          | inl info =>
              create_entry configured (Discovery.conf_host device)
                (Some (Discovery.conf_port device)) info
          end
      end
  | None => show []
  end.

End ConfigFlow.

(* ================================================================= *)
(** ** device_action.py *)

Module DeviceAction.
Import Py Builtins.

Definition ACTION_TURN_ON : string := "turn_on".
Definition ACTION_TURN_OFF : string := "turn_off".
Definition ACTION_SET_BRIGHTNESS : string := "set_brightness".
Definition ACTION_SET_COLOR : string := "set_color".
Definition ACTION_SET_EFFECT : string := "set_effect".

(** Home Assistant's constants. *)
Definition LIGHT_DOMAIN : string := "light".
Definition DOMAIN : string := "picow_neopixel".
Definition ATTR_ENTITY_ID : string := "entity_id".
Definition CONF_DEVICE_ID : string := "device_id".
Definition CONF_DOMAIN : string := "domain".
Definition CONF_TYPE : string := "type".

(** An entry of the entity registry, as far as it is read. *)
Record registry_entry : Type := {
  domain : string;
  entity_id : string
}.

Definition action_types : list string :=
  [ACTION_TURN_ON; ACTION_TURN_OFF; ACTION_SET_BRIGHTNESS; ACTION_SET_COLOR;
   ACTION_SET_EFFECT].

(** [entities] is what [er.async_entries_for_device] lists for the
    device. *)
Definition async_get_actions (entities : list registry_entry) (device_id : string)
    : list (list (string * json)) :=
  flat_map
    (fun entry =>
       if negb (String.eqb (domain entry) LIGHT_DOMAIN) then []
       else
         let base_action :=
           [(CONF_DEVICE_ID, JStr device_id); (CONF_DOMAIN, JStr DOMAIN);
            (ATTR_ENTITY_ID, JStr (entity_id entry))] in
         map (fun t => setitem CONF_TYPE (JStr t) base_action) action_types)
    entities.

Definition is_light (entry : registry_entry) : bool :=
  String.eqb (domain entry) LIGHT_DOMAIN.

(** One [hass.services.async_call(domain, service, service_data,
    blocking=True, context=context)]. *)
Record service_call : Type := {
  call_domain : string;
  call_service : string;
  service_data : list (string * json)
}.

(** The service calls made, in order. *)
Definition async_call_action_from_config (config : json)
    : result (list service_call) :=
  action_type <- getitem config CONF_TYPE ;;
  entity_id <- getitem config ATTR_ENTITY_ID ;;
  let service_data := [(ATTR_ENTITY_ID, entity_id)] in
  let call service data :=
    {| call_domain := LIGHT_DOMAIN; call_service := service; service_data := data |} in
  if eq_str action_type ACTION_TURN_ON then
    Ok [call "turn_on" service_data]
  else if eq_str action_type ACTION_TURN_OFF then
    Ok [call "turn_off" service_data]
  else if eq_str action_type ACTION_SET_BRIGHTNESS then
    brightness <- getitem config "brightness" ;;
    Ok [call "turn_on" (setitem "brightness" brightness service_data)]
  else if eq_str action_type ACTION_SET_COLOR then
    rgb_color <- getitem config "rgb_color" ;;
    Ok [call "turn_on" (setitem "rgb_color" rgb_color service_data)]
  else if eq_str action_type ACTION_SET_EFFECT then
    effect <- getitem config "effect" ;;
    Ok [call "turn_on" (setitem "effect" effect service_data)]
  else Ok [].

End DeviceAction.

(* ================================================================= *)
(** ** config_flow.py: the networks a scan covers *)

Module Networks.
Import Py Builtins.

(** An entry of an adapter's ["ipv4"] list and an adapter, as far as
    they are read: [ip_info.get("address")],
    [ip_info.get("network_prefix")], [adapter.get("enabled")]. *)
Record ip_info : Type := {
  address : option string;
  network_prefix : option Z
}.

Record adapter : Type := {
  enabled : option bool;
  ipv4 : list ip_info
}.

Definition common_networks : list string :=
  ["192.168.0.0/24"; "192.168.1.0/24"; "192.168.2.0/24"; "192.168.10.0/24";
   "192.168.100.0/24"; "192.168.111.0/24"; "192.168.178.0/24"; "10.0.0.0/24";
   "10.0.1.0/24"].

Section Collect.

(** Python's [ipaddress] module: the network objects,
    [ip_network(text, strict=False)] ([None] when it raises), [str] of a
    network, equality of networks and [hosts()]. *)
Variable network : Type.
Variable ip_network : string -> option network.
Variable network_str : network -> string.
Variable network_eqb : network -> network -> bool.
Variable hosts : network -> list string.

(** The three variables the adapter loop fills. *)
Record collected : Type := {
  local_ips : list string;
  networks_to_scan : list network;
  is_docker : bool
}.

(** [networks_to_scan.add(n)] on a set kept as a list. *)
Definition add (n : network) (s : list network) : list network :=
  if existsb (network_eqb n) s then s else (s ++ [n])%list.

Definition scan_ip_info (st : collected) (info : ip_info) : collected :=
  match address info with
  | None => st
  | Some address =>
      if String.eqb address "" || startswith address "127." then st
      else
        let local_ips := (local_ips st ++ [address])%list in
        let is_docker := if startswith address "172." then true else is_docker st in
        let network_prefix :=
          match network_prefix info with Some p => p | None => 24 end in
        let networks :=
          match ip_network (address ++ "/" ++ Coordinator.string_of_Z network_prefix) with
          | Some network_obj =>
              if negb (startswith (network_str network_obj) "172.")
              then add network_obj (networks_to_scan st)
              else networks_to_scan st
          | None => networks_to_scan st
          end in
        {| local_ips := local_ips; networks_to_scan := networks;
           is_docker := is_docker |}
  end.

Definition scan_adapter (st : collected) (a : adapter) : collected :=
  match enabled a with
  | Some false => st
  | _ => fold_left scan_ip_info (ipv4 a) st
  end.

Definition scan_adapters (adapters : list adapter) : collected :=
  fold_left scan_adapter adapters
    {| local_ips := []; networks_to_scan := []; is_docker := false |}.

(** The common home networks that parse, as a set. *)
Definition fallback_networks : list network :=
  fold_left
    (fun s text =>
       match ip_network text with
       | Some n => add n s
       | None => s
       end)
    common_networks [].

(** The variables as the scan loop finds them. *)
Definition collect (adapters : list adapter) : collected :=
  let st := scan_adapters adapters in
  match networks_to_scan st with
  | [] =>
      if is_docker st then
        {| local_ips := local_ips st; networks_to_scan := fallback_networks;
           is_docker := is_docker st |}
      else st
  | _ :: _ => st
  end.

(** The whole of [_discover_devices_http] after the adapters are
    known. *)
Definition discover (clock : nat -> Q)
    (_scan_ip : nat -> string -> Z -> option Discovery.scan_result)
    (completes_within : Q -> list string -> bool) (adapters : list adapter)
    : Discovery.scan_state :=
  let st := collect adapters in
  Discovery._discover_devices_http clock _scan_ip completes_within
    (local_ips st) (map hosts (networks_to_scan st)).

(** The addresses the adapter loop keeps: those of adapters not
    disabled, present, non-empty and not starting with "127.". *)
Definition own_addresses (adapters : list adapter) : list string :=
  flat_map
    (fun a =>
       match enabled a with
       | Some false => []
       | _ =>
           flat_map
             (fun info =>
                match address info with
                | Some address =>
                    if String.eqb address "" || startswith address "127." then []
                    else [address]
                | None => []
                end)
             (ipv4 a)
       end)
    adapters.

(** The network [n] was computed from an address of an adapter that is
    not disabled, does not print as a "172." network, and the address is
    one of those kept. *)
Definition derived (adapters : list adapter) (n : network) : Prop :=
  exists a info addr,
    In a adapters /\ enabled a <> Some false /\ In info (ipv4 a) /\
    address info = Some addr /\
    In addr (own_addresses adapters) /\
    ip_network
      (addr ++ "/" ++
       Coordinator.string_of_Z
         (match network_prefix info with Some p => p | None => 24 end)) = Some n /\
    startswith (network_str n) "172." = false.

(** The network [n] is one of the common home networks. *)
Definition guessed (n : network) : Prop :=
  exists text, In text common_networks /\ ip_network text = Some n.

End Collect.

End Networks.

(* ================================================================= *)
(** ** Notions used to state properties of the scan *)

Module ScanNotions.
Import Discovery.

Definition entry_of (r : scan_result) : device_entry :=
  {| conf_host := ip r; conf_port := port r; conf_name := name r |}.

(** The addresses of all batches awaited, in order. *)
Definition probed (s : scan_state) : list string :=
  List.concat (map batch (trace s)).

(** The addresses of the networks that are not the scanner's own. *)
Definition candidates (local_ips : list string) (networks : list (list string))
    : list string :=
  filter (fun ip_str => negb (existsb (String.eqb ip_str) local_ips))
    (List.concat networks).

(** The addresses handed to a probe so far, awaited or not. *)
Definition pending (s : scan_state) : list string :=
  (probed s ++ scan_tasks s)%list.

(** Some clock reading taken so far was past the deadline. *)
Definition late (clock : nat -> Q) (s : scan_state) : Prop :=
  exists m : nat, (m < reads s)%nat /\ (DISCOVERY_TIMEOUT < elapsed_at clock m)%Q.

(** The devices recorded have distinct identities and each stems from a
    probe of a batch awaited. *)
Definition recorded_from_probes
    (_scan_ip : nat -> string -> Z -> option scan_result) (s : scan_state) : Prop :=
  NoDup (map fst (discovered_devices s)) /\
  forall id e,
    In (id, e) (discovered_devices s) ->
    exists ev ip_str r,
      In ev (trace s) /\ In ip_str (batch ev) /\
      _scan_ip (reading ev) ip_str Const.DEFAULT_PORT = Some r /\
      device_id r = id /\ e = entry_of r.

(** The loops' bound on what is waiting to be awaited, and on what was
    awaited: fewer than [MAX_PARALLEL_SCANS] tasks unless the deadline
    was seen to pass, and full batches of exactly that size without a
    timeout. *)
Definition capped (clock : nat -> Q) (s : scan_state) : Prop :=
  ((List.length (scan_tasks s) < MAX_PARALLEL_SCANS)%nat \/ late clock s) /\
  forall ev, In ev (trace s) ->
    timeout ev = None /\ List.length (batch ev) = MAX_PARALLEL_SCANS.

Definition monotone (clock : nat -> Q) : Prop :=
  forall m n : nat, (m <= n)%nat -> (clock m <= clock n)%Q.

(** The last result of a list that reports the identity [id]. *)
Definition last_reporting (id : string) (results : list (option scan_result))
    : option scan_result :=
  fold_left
    (fun acc result =>
       match result with
       | Some r => if String.eqb id (device_id r) then Some r else acc
       | None => acc
       end)
    results None.

End ScanNotions.

(* ================================================================= *)
(** ** Properties of the Python operations *)

Module PyFacts.
Import Py.

Lemma eq_str_true (v : json) (s : string) : eq_str v s = true <-> v = JStr s.
Proof.
  split.
  - destruct v; simpl; try discriminate.
    intros H. apply String.eqb_eq in H. now subst.
  - intros ->. simpl. apply String.eqb_refl.
Qed.

Lemma getitem_raises (v : json) (k : string) (e : exn) :
  getitem v k = Raise e -> e = KeyError \/ e = TypeError.
Proof.
  destruct v; simpl; try (intros [= <-]; now right).
  destruct (assoc k kvs); [discriminate | intros [= <-]; now left].
Qed.

Lemma getitem_dict (v : json) (k : string) (x : json) :
  getitem v k = Ok x -> exists kvs, v = JDict kvs /\ assoc k kvs = Some x.
Proof.
  destruct v; simpl; try discriminate.
  destruct (assoc k kvs) eqn:E; [intros [= <-]; eauto | discriminate].
Qed.

Lemma zrange_forallb (P : Z -> bool) (n : nat) :
  forallb P (zrange n) = true ->
  forall b, 0 <= b < Z.of_nat n -> P b = true.
Proof.
  intros H b Hb.
  rewrite forallb_forall in H. apply H.
  unfold zrange. apply in_map_iff. exists (Z.to_nat b). split.
  - lia.
  - apply in_seq. lia.
Qed.

End PyFacts.

(* ================================================================= *)
(** ** The light entity *)

Module LightFacts.
Import Py Light PyFacts.

(** On the consumer's range the float computation of the outgoing
    brightness is the truncated quotient, floored at 1. *)
Lemma brightness_to_device_trunc (b : Z) :
  0 <= b <= 255 -> brightness_to_device b = Ok (Z.max 1 (b * 100 / 255)).
Proof.
  intros Hb.
  pose (P := fun b => match brightness_to_device b with
                      | Ok p => Z.eqb p (Z.max 1 (b * 100 / 255))
                      | Raise _ => false
                      end).
  assert (H : P b = true).
  { apply (zrange_forallb P 256); [vm_compute; reflexivity | lia]. }
  unfold P in H. destruct (brightness_to_device b); [|discriminate].
  apply Z.eqb_eq in H. now subst.
Qed.

(** On the device's range the float computation of the presented
    brightness is the truncated quotient. *)
Lemma percent_to_255_trunc (p : Z) :
  0 <= p <= 100 -> percent_to_255 (JInt p) = Ok (p * 255 / 100).
Proof.
  intros Hp.
  pose (P := fun p => match percent_to_255 (JInt p) with
                      | Ok b => Z.eqb b (p * 255 / 100)
                      | Raise _ => false
                      end).
  assert (H : P p = true).
  { apply (zrange_forallb P 101); [vm_compute; reflexivity | lia]. }
  unfold P in H. destruct (percent_to_255 (JInt p)); [|discriminate].
  apply Z.eqb_eq in H. now subst.
Qed.

Lemma brightness_of_percent (state_rest : list (string * json)) (p : Z) :
  0 <= p <= 100 ->
  brightness (JDict [("state", JDict (("brightness", JInt p) :: state_rest))])
  = Ok (JInt (p * 255 / 100)).
Proof.
  intros Hp. unfold brightness. cbn [getitem assoc String.eqb Ascii.eqb Bool.eqb bind].
  simpl getitem. cbn [bind].
  rewrite (percent_to_255_trunc p Hp). reflexivity.
Qed.

(** The documented, rounding conversions would keep a round trip within
    one unit in both directions. *)
Lemma documented_round_trip (b p : Z) :
  0 <= b <= 255 -> 0 <= p <= 100 ->
  Z.abs (Documented.to_percent (Documented.to_device b) - b) <= 1 /\
  Z.abs (Documented.to_device (Documented.to_percent p) - p) <= 1.
Proof.
  intros Hb Hp. split.
  - pose (P := fun b =>
        Z.leb (Z.abs (Documented.to_percent (Documented.to_device b) - b)) 1).
    apply Z.leb_le. change (P b = true).
    apply (zrange_forallb P 256); [vm_compute; reflexivity | lia].
  - pose (P := fun p =>
        Z.leb (Z.abs (Documented.to_device (Documented.to_percent p) - p)) 1).
    apply Z.leb_le. change (P p = true).
    apply (zrange_forallb P 101); [vm_compute; reflexivity | lia].
Qed.

(** C3, as stated, fails: brightness 254 goes out as 99 (the code
    truncates, rounding would give 100) and 99 is presented as 252, two
    units away from 254. *)
Lemma brightness_round_trip_254 :
  brightness_to_device 254 = Ok 99 /\
  percent_to_255 (JInt 99) = Ok 252 /\
  ~ Z.abs (252 - 254) <= 1 /\
  Documented.to_device 254 = 100.
Proof.
  repeat split; try (vm_compute; reflexivity).
  intros H. vm_compute in H. apply H. reflexivity.
Qed.

(** C3, amended: both conversions truncate, [int(b/255*100)] floored at 1
    toward the device and [int(p/100*255)] toward the consumer.  For
    every [b] in [0,255] the round trip through the device scale comes
    back within three units of [b]; for every [p] in [0,100] the round
    trip through the consumer scale comes back within one unit of [p]. *)
Theorem brightness_round_trip_truncating (b p : Z) :
  0 <= b <= 255 -> 0 <= p <= 100 ->
  (exists p' b',
      brightness_to_device b = Ok p' /\ p' = Z.max 1 (b * 100 / 255) /\
      percent_to_255 (JInt p') = Ok b' /\ b' = p' * 255 / 100 /\
      Z.abs (b' - b) <= 3) /\
  (exists b' p',
      percent_to_255 (JInt p) = Ok b' /\ b' = p * 255 / 100 /\
      brightness_to_device b' = Ok p' /\ p' = Z.max 1 (b' * 100 / 255) /\
      Z.abs (p' - p) <= 1).
Proof.
  intros Hb Hp. split.
  - exists (Z.max 1 (b * 100 / 255)), (Z.max 1 (b * 100 / 255) * 255 / 100).
    assert (Hq : 0 <= b * 100 / 255 <= 100).
    { split; [apply Z.div_pos; lia | apply Z.div_le_upper_bound; lia]. }
    split; [now apply brightness_to_device_trunc|].
    split; [reflexivity|].
    split; [apply percent_to_255_trunc; lia|].
    split; [reflexivity|].
    Z.to_euclidean_division_equations. lia.
  - exists (p * 255 / 100), (Z.max 1 (p * 255 / 100 * 100 / 255)).
    assert (Hq : 0 <= p * 255 / 100 <= 255).
    { split; [apply Z.div_pos; lia | apply Z.div_le_upper_bound; lia]. }
    split; [now apply percent_to_255_trunc|].
    split; [reflexivity|].
    split; [now apply brightness_to_device_trunc|].
    split; [reflexivity|].
    Z.to_euclidean_division_equations. lia.
Qed.

Lemma brightness_round_trip_truncating_witness :
  (0 <= 5 <= 255 /\ 0 <= 50 <= 100) /\
  (exists p' b',
      brightness_to_device 5 = Ok p' /\ p' = Z.max 1 (5 * 100 / 255) /\
      percent_to_255 (JInt p') = Ok b' /\ b' = p' * 255 / 100 /\
      Z.abs (b' - 5) <= 3) /\
  (exists b' p',
      percent_to_255 (JInt 50) = Ok b' /\ b' = 50 * 255 / 100 /\
      brightness_to_device b' = Ok p' /\ p' = Z.max 1 (b' * 100 / 255) /\
      Z.abs (p' - 50) <= 1).
Proof.
  split; [lia | apply (brightness_round_trip_truncating 5 50); lia].
Defined.

(** C7: a turn-on command built for a nonzero brightness in [0,255]
    carries power "on" and a device-side brightness of at least 1. *)
Theorem turn_on_brightness_at_least_1 (kw : kwargs) (b : Z) :
  kw_brightness kw = Some b -> 0 <= b <= 255 -> b <> 0 ->
  exists command p,
    turn_on_command kw = Ok command /\
    assoc "power" command = Some (JStr "on") /\
    assoc "brightness" command = Some (JInt p) /\
    1 <= p <= 100.
Proof.
  intros Hkw Hb Hnz.
  assert (Hq : 0 <= b * 100 / 255 <= 100).
  { split; [apply Z.div_pos; lia | apply Z.div_le_upper_bound; lia]. }
  destruct kw as [kb krgb keff]. simpl in Hkw. subst kb.
  unfold turn_on_command. cbn [kw_brightness kw_rgb_color kw_effect].
  rewrite (brightness_to_device_trunc b Hb). cbn [bind].
  destruct krgb as [[[r g] b']|]; destruct keff as [e|];
    (eexists; exists (Z.max 1 (b * 100 / 255));
     split; [reflexivity|]; split; [reflexivity|]; split; [reflexivity|]; lia).
Qed.

Lemma turn_on_brightness_at_least_1_witness :
  let kw := {| kw_brightness := Some 1; kw_rgb_color := Some (255, 0, 0);
               kw_effect := None |} in
  (kw_brightness kw = Some 1 /\ 0 <= 1 <= 255 /\ 1 <> 0) /\
  exists command p,
    turn_on_command kw = Ok command /\
    assoc "power" command = Some (JStr "on") /\
    assoc "brightness" command = Some (JInt p) /\
    1 <= p <= 100.
Proof.
  intros kw. split.
  - repeat split; [lia | lia | discriminate].
  - apply (turn_on_brightness_at_least_1 kw 1); [reflexivity | lia | discriminate].
Defined.

(** C8: whatever value the cache holds as effect, the property gives
    [None] when the value is the string "static" and the value itself
    otherwise. *)
Theorem effect_static_is_none (data state e : json) :
  getitem data "state" = Ok state ->
  getitem state "effect" = Ok e ->
  (e = JStr Const.EFFECT_STATIC -> effect data = Ok JNull) /\
  (e <> JStr Const.EFFECT_STATIC -> effect data = Ok e).
Proof.
  intros Hs He. unfold effect. rewrite Hs. cbn [bind]. rewrite He. cbn [bind].
  split; intros H.
  - apply eq_str_true in H. rewrite H. reflexivity.
  - destruct (eq_str e Const.EFFECT_STATIC) eqn:E.
    + apply eq_str_true in E. contradiction.
    + reflexivity.
Qed.

Lemma effect_static_is_none_witness :
  let state := JDict [("is_on", JBool true); ("effect", JStr "rainbow")] in
  let data := JDict [("state", state); ("info", JDict [])] in
  (getitem data "state" = Ok state /\
   getitem state "effect" = Ok (JStr "rainbow")) /\
  (JStr "rainbow" = JStr Const.EFFECT_STATIC -> effect data = Ok JNull) /\
  (JStr "rainbow" <> JStr Const.EFFECT_STATIC -> effect data = Ok (JStr "rainbow")).
Proof.
  intros state data. split.
  - split; reflexivity.
  - apply (effect_static_is_none data state (JStr "rainbow")); reflexivity.
Defined.

(** *** The properties on arbitrary cache contents *)

Lemma is_on_never_raises (data : json) : exists v, is_on data = Ok v.
Proof.
  unfold is_on.
  destruct (getitem data "state") as [state|e] eqn:Hs; cbn [bind].
  - destruct (getitem state "is_on") as [v|e] eqn:Hv; cbn [try_except].
    + eauto.
    + destruct (getitem_raises _ _ _ Hv) as [-> | ->]; simpl; eauto.
  - destruct (getitem_raises _ _ _ Hs) as [-> | ->]; simpl; eauto.
Qed.

Lemma effect_never_raises (data : json) : exists v, effect data = Ok v.
Proof.
  unfold effect.
  destruct (getitem data "state") as [state|e] eqn:Hs; cbn [bind].
  - destruct (getitem state "effect") as [v|e] eqn:Hv; cbn [bind try_except].
    + eauto.
    + destruct (getitem_raises _ _ _ Hv) as [-> | ->]; simpl; eauto.
  - destruct (getitem_raises _ _ _ Hs) as [-> | ->]; simpl; eauto.
Qed.

Lemma rgb_color_never_raises (data : json) : exists v, rgb_color data = Ok v.
Proof.
  unfold rgb_color.
  destruct (getitem data "state") as [state|e] eqn:Hs; cbn [bind];
    [| destruct (getitem_raises _ _ _ Hs) as [-> | ->]; simpl; eauto].
  destruct (getitem state "color") as [color|e] eqn:Hc; cbn [bind];
    [| destruct (getitem_raises _ _ _ Hc) as [-> | ->]; simpl; eauto].
  destruct (getitem color "r") as [r|e] eqn:Hr; cbn [bind];
    [| destruct (getitem_raises _ _ _ Hr) as [-> | ->]; simpl; eauto].
  destruct (getitem color "g") as [g|e] eqn:Hg; cbn [bind];
    [| destruct (getitem_raises _ _ _ Hg) as [-> | ->]; simpl; eauto].
  destruct (getitem color "b") as [b|e] eqn:Hb; cbn [bind];
    [| destruct (getitem_raises _ _ _ Hb) as [-> | ->]; simpl; eauto].
  simpl. eauto.
Qed.

(** When the path to a field cannot be followed (the cache is [None] or
    not a dict, or a key is missing) the fixed defaults come back. *)
Lemma defaults_without_state (data : json) :
  is_ok (getitem data "state") = false ->
  is_on data = Ok (JBool false) /\
  brightness data = Ok (JInt 255) /\
  rgb_color data = Ok (JInt 255, JInt 255, JInt 255) /\
  effect data = Ok JNull.
Proof.
  intros H. unfold is_on, brightness, rgb_color, effect.
  destruct (getitem data "state") as [state|e] eqn:Hs; [discriminate|].
  destruct (getitem_raises _ _ _ Hs) as [-> | ->]; repeat split; reflexivity.
Qed.

Lemma defaults_without_field (data state : json) :
  getitem data "state" = Ok state ->
  (is_ok (getitem state "is_on") = false -> is_on data = Ok (JBool false)) /\
  (is_ok (getitem state "brightness") = false -> brightness data = Ok (JInt 255)) /\
  (is_ok (getitem state "color") = false ->
   rgb_color data = Ok (JInt 255, JInt 255, JInt 255)) /\
  (is_ok (getitem state "effect") = false -> effect data = Ok JNull).
Proof.
  intros Hs. unfold is_on, brightness, rgb_color, effect. rewrite Hs. cbn [bind].
  repeat split; intros H;
    match goal with
    | |- context [getitem state ?k] =>
        destruct (getitem state k) as [v|e] eqn:Hv; [discriminate|];
        destruct (getitem_raises _ _ _ Hv) as [-> | ->]; reflexivity
    end.
Qed.

(** [brightness] returns, or raises [OverflowError]: the one exception
    of its body that the [except] clause does not name. *)
Lemma brightness_returns_or_overflows (data : json) :
  (exists v, brightness data = Ok v) \/ brightness data = Raise OverflowError.
Proof.
  unfold brightness.
  destruct (getitem data "state") as [state|e] eqn:Hs; cbn [bind];
    [| destruct (getitem_raises _ _ _ Hs) as [-> | ->]; simpl; eauto].
  destruct (getitem state "brightness") as [bp|e] eqn:Hb; cbn [bind];
    [| destruct (getitem_raises _ _ _ Hb) as [-> | ->]; simpl; eauto].
  unfold percent_to_255.
  assert (Hd : (exists q, truediv bp 100 = Ok q) \/
               truediv bp 100 = Raise OverflowError \/
               truediv bp 100 = Raise TypeError).
  { unfold truediv. change (Z.eqb 100 0) with false. cbv iota.
    destruct bp; eauto;
      match goal with
      | |- context [is_infinity ?q] => destruct (is_infinity q); eauto
      end. }
  destruct Hd as [[q ->] | [-> | ->]]; cbn [bind]; simpl; eauto.
  destruct (mul_int q 255); simpl; eauto.
Qed.

(** C10 fails on the code for [brightness]: a state block whose
    brightness is an infinite float (JSON [1e999]) or an integer beyond
    the float range makes the property raise [OverflowError], while the
    other three properties answer on the same cache. *)
Theorem brightness_raises_overflow :
  let huge := JDict [("state", JDict [("is_on", JBool true);
                                      ("brightness", JInt (10 ^ 400))])] in
  let inf := JDict [("state", JDict [("is_on", JBool true);
                                     ("brightness", JFloat (S754_infinity false))])] in
  brightness inf = Raise OverflowError /\
  brightness huge = Raise OverflowError /\
  is_on inf = Ok (JBool true) /\
  rgb_color inf = Ok (JInt 255, JInt 255, JInt 255) /\
  effect inf = Ok JNull.
Proof.
  repeat split; vm_compute; reflexivity.
Qed.

End LightFacts.

(* ================================================================= *)
(** ** The coordinator *)

Module CoordinatorFacts.
Import Py Coordinator.

(** A poll cycle either commits, marking the device available, or
    raises [UpdateFailed], marking it unavailable. *)
Lemma update_data_cases (c : coordinator) (io : session) :
  (exists state info,
      _get_state c io = Ok state /\ _get_info c io = Ok info /\
      _async_update_data c io =
      (set_available c true, Ok (JDict [("state", state); ("info", info)]))) \/
  (exists cause,
      _async_update_data c io =
      (set_available c false, Raise (UpdateFailed (Some cause)))).
Proof.
  unfold _async_update_data.
  destruct (_get_state c io) as [state|e]; cbn [bind].
  - destruct (_get_info c io) as [info|e]; cbn [bind].
    + left. eauto.
    + right. destruct e; eauto.
  - right. destruct e; eauto.
Qed.

Lemma get_state_ok (c : coordinator) (io : session) :
  fetch_ok (io (GET (base_url c ++ Const.API_STATE))) = false ->
  is_ok (_get_state c io) = false.
Proof.
  unfold _get_state, fetch_ok.
  destruct (io (GET (base_url c ++ Const.API_STATE))) as [| |status [v|e]];
    try reflexivity.
  - intros ->. reflexivity.
  - intros _. destruct (Z.eqb status 200); reflexivity.
Qed.

Lemma get_info_ok (c : coordinator) (io : session) :
  fetch_ok (io (GET (base_url c ++ Const.API_INFO))) = false ->
  is_ok (_get_info c io) = false.
Proof.
  unfold _get_info, fetch_ok.
  destruct (io (GET (base_url c ++ Const.API_INFO))) as [| |status [v|e]];
    try reflexivity.
  - intros ->. reflexivity.
  - intros _. destruct (Z.eqb status 200); reflexivity.
Qed.

(** A command returns with the cache as it was, returns with a fresh
    snapshot cached, or raises [UpdateFailed] with the coordinator as it
    was. *)
Lemma send_command_cases (c : coordinator) (command : json) (io : session) :
  (exists result, async_send_command c command io = (c, Ok result)) \/
  (exists result state info,
      async_send_command c command io =
      (async_set_updated_data c (JDict [("state", state); ("info", info)]),
       Ok result)) \/
  (exists cause,
      async_send_command c command io = (c, Raise (UpdateFailed (Some cause)))).
Proof.
  unfold async_send_command.
  destruct (io (POST (base_url c ++ Const.API_CONTROL) command))
    as [| |status [result|e]]; eauto.
  - destruct (Z.eqb status 200); cbn [negb]; eauto.
    destruct (contains "state" result) as [[|]|e]; eauto.
    + destruct (getitem result "state") as [state|e]; cbn [bind].
      * destruct (get (data c) "info" (JDict [])) as [info|e]; cbn [bind].
        -- right. left. eauto.
        -- right. right. destruct e; eauto.
      * right. right. destruct e; eauto.
    + right. right. destruct e; eauto.
  - destruct (Z.eqb status 200); cbn [negb]; eauto.
    right. right. destruct e; eauto.
Qed.

(** C4: when either fetch of a poll cycle fails, the cycle raises
    [UpdateFailed], the availability flag is false afterwards and the
    cache is what it was (also when it was still [None]). *)
Theorem poll_failure_keeps_snapshot (c : coordinator) (io : session) :
  fetch_ok (io (GET (base_url c ++ Const.API_STATE))) = false \/
  fetch_ok (io (GET (base_url c ++ Const.API_INFO))) = false ->
  exists cause c',
    _async_update_data c io = (c', Raise (UpdateFailed (Some cause))) /\
    async_refresh c io = (c', Raise (UpdateFailed (Some cause))) /\
    available c' = false /\
    data c' = data c.
Proof.
  intros H.
  destruct (update_data_cases c io) as [(state & info & Hs & Hi & _) | (cause & E)].
  - exfalso. destruct H as [H | H].
    + apply get_state_ok in H. rewrite Hs in H. discriminate.
    + apply get_info_ok in H. rewrite Hi in H. discriminate.
  - exists cause, (set_available c false).
    unfold async_refresh. rewrite E. repeat split.
Qed.

Lemma poll_failure_keeps_snapshot_witness :
  let c := __init__ "192.168.1.50" None in
  let io := fun r : request =>
    match r with
    | GET "http://192.168.1.50:80/state" => TimedOut
    | _ => Response 200 (Ok (JDict []))
    end in
  (fetch_ok (io (GET (base_url c ++ Const.API_STATE))) = false \/
   fetch_ok (io (GET (base_url c ++ Const.API_INFO))) = false) /\
  exists cause c',
    _async_update_data c io = (c', Raise (UpdateFailed (Some cause))) /\
    async_refresh c io = (c', Raise (UpdateFailed (Some cause))) /\
    available c' = false /\
    data c' = data c.
Proof.
  intros c io. split.
  - left. reflexivity.
  - apply (poll_failure_keeps_snapshot c io). left. reflexivity.
Defined.

(** C5: a command whose exchange fails (timeout, transport error,
    status other than 200, unparseable body), and more generally every
    command that raises, raises [UpdateFailed] and leaves the
    coordinator, its cache included, as it was. *)
Theorem command_failure_keeps_snapshot
    (c : coordinator) (command : json) (io : session) :
  exchange_failed (io (POST (base_url c ++ Const.API_CONTROL) command)) = true \/
  is_ok (snd (async_send_command c command io)) = false ->
  exists cause,
    async_send_command c command io = (c, Raise (UpdateFailed (Some cause))).
Proof.
  intros H.
  assert (Hfail : is_ok (snd (async_send_command c command io)) = false).
  { destruct H as [H | H]; [| exact H].
    unfold exchange_failed, fetch_ok in H. unfold async_send_command.
    destruct (io (POST (base_url c ++ Const.API_CONTROL) command))
      as [| |status [result|e]]; try reflexivity.
    - apply negb_true_iff in H. rewrite H. reflexivity.
    - destruct (Z.eqb status 200); cbn [negb]; [destruct e |]; reflexivity. }
  destruct (send_command_cases c command io)
    as [(result & E) | [(result & state & info & E) | (cause & E)]];
    rewrite E in Hfail; try discriminate.
  eauto.
Qed.

Lemma command_failure_keeps_snapshot_witness :
  let c := set_data (__init__ "192.168.1.50" None)
             (JDict [("state", JDict [("is_on", JBool true)]);
                     ("info", JDict [])]) in
  let command := JDict [("power", JStr "off")] in
  let io := fun _ : request => Response 500 (Ok (JDict [("error", JStr "busy")])) in
  (exchange_failed (io (POST (base_url c ++ Const.API_CONTROL) command)) = true \/
   is_ok (snd (async_send_command c command io)) = false) /\
  exists cause,
    async_send_command c command io = (c, Raise (UpdateFailed (Some cause))).
Proof.
  intros c command io. split.
  - left. reflexivity.
  - apply (command_failure_keeps_snapshot c command io). left. reflexivity.
Defined.

(** C6: a command answered with status 200 and a body that has a state
    field returns the body and replaces the cache by the snapshot made
    of the body's state block and the cached info block, unchanged. *)
Theorem command_success_replaces_state
    (c : coordinator) (command : json) (io : session)
    (result state info : json) :
  io (POST (base_url c ++ Const.API_CONTROL) command) = Response 200 (Ok result) ->
  getitem result "state" = Ok state ->
  getitem (data c) "info" = Ok info ->
  exists c',
    async_send_command c command io = (c', Ok result) /\
    data c' = JDict [("state", state); ("info", info)] /\
    getitem (data c') "state" = Ok state /\
    getitem (data c') "info" = getitem (data c) "info" /\
    available c' = available c.
Proof.
  intros Hio Hs Hi.
  destruct (PyFacts.getitem_dict _ _ _ Hs) as (kvs & -> & Hkvs).
  destruct (PyFacts.getitem_dict _ _ _ Hi) as (old & Hold & Hinfo).
  exists (async_set_updated_data c (JDict [("state", state); ("info", info)])).
  unfold async_send_command. rewrite Hio. cbn [Z.eqb Pos.eqb negb contains].
  rewrite Hkvs. rewrite Hs. cbn [bind]. rewrite Hold. cbn [get]. rewrite Hinfo.
  cbn [bind]. repeat split.
  cbn [data async_set_updated_data set_data getitem].
  rewrite Hinfo. reflexivity.
Qed.

Lemma command_success_replaces_state_witness :
  let info := JDict [("device", JDict [("id", JStr "pico-1")]);
                     ("capabilities", JDict [("num_leds", JInt 30)])] in
  let c := set_data (__init__ "192.168.1.50" None)
             (JDict [("state", JDict [("is_on", JBool false)]); ("info", info)]) in
  let command := JDict [("power", JStr "on")] in
  let state := JDict [("is_on", JBool true); ("brightness", JInt 40)] in
  let result := JDict [("status", JStr "ok"); ("state", state)] in
  let io := fun _ : request => Response 200 (Ok result) in
  (io (POST (base_url c ++ Const.API_CONTROL) command) = Response 200 (Ok result) /\
   getitem result "state" = Ok state /\
   getitem (data c) "info" = Ok info) /\
  exists c',
    async_send_command c command io = (c', Ok result) /\
    data c' = JDict [("state", state); ("info", info)] /\
    getitem (data c') "state" = Ok state /\
    getitem (data c') "info" = getitem (data c) "info" /\
    available c' = available c.
Proof.
  intros info c command state result io. split.
  - repeat split.
  - apply (command_success_replaces_state c command io result state info);
      reflexivity.
Defined.

(** C9: a command answered with status 200 and a body in which the test
    ["state" in result] is false returns the body and leaves the
    coordinator, its cache included, as it was. *)
Theorem command_without_state_keeps_snapshot
    (c : coordinator) (command : json) (io : session) (result : json) :
  io (POST (base_url c ++ Const.API_CONTROL) command) = Response 200 (Ok result) ->
  contains "state" result = Ok false ->
  async_send_command c command io = (c, Ok result).
Proof.
  intros Hio Hc. unfold async_send_command.
  rewrite Hio. cbn [Z.eqb Pos.eqb negb]. rewrite Hc. reflexivity.
Qed.

Lemma command_without_state_keeps_snapshot_witness :
  let c := set_data (__init__ "192.168.1.50" None)
             (JDict [("state", JDict [("is_on", JBool true)]);
                     ("info", JDict [])]) in
  let command := JDict [("power", JStr "off")] in
  let result := JDict [("status", JStr "ok")] in
  let io := fun _ : request => Response 200 (Ok result) in
  (io (POST (base_url c ++ Const.API_CONTROL) command) = Response 200 (Ok result) /\
   contains "state" result = Ok false) /\
  async_send_command c command io = (c, Ok result).
Proof.
  intros c command result io. split.
  - split; reflexivity.
  - apply (command_without_state_keeps_snapshot c command io result); reflexivity.
Defined.

(** *** Availability over sequences of operations *)

Lemma step_poll (c : coordinator) (io : session) :
  available (fst (step c (Poll io))) = snd (step c (Poll io)).
Proof.
  unfold step, async_refresh.
  destruct (update_data_cases c io) as [(state & info & _ & _ & E) | (cause & E)];
    rewrite E; reflexivity.
Qed.

Lemma step_command (c : coordinator) (command : json) (io : session) :
  available (fst (step c (Command command io))) = available c.
Proof.
  unfold step.
  destruct (send_command_cases c command io)
    as [(result & E) | [(result & state & info & E) | (cause & E)]];
    rewrite E; reflexivity.
Qed.

Lemma run_available (ops : list op) :
  forall (c : coordinator) (h : history),
    available c = expected_available h ->
    available (fst (run c h ops)) = expected_available (snd (run c h ops)).
Proof.
  induction ops as [|o ops IH]; intros c h Hinv.
  - exact Hinv.
  - cbn [run]. destruct (step c o) as [c' ok] eqn:E.
    apply IH. destruct o as [io | command io].
    + pose proof (step_poll c io) as H. rewrite E in H. exact H.
    + pose proof (step_command c command io) as H. rewrite E in H.
      cbn [fst] in H. rewrite H. exact Hinv.
Qed.

(** C1, as stated, fails in both directions: after a successful poll a
    command that times out leaves the flag true, and after a failed poll
    a command that succeeds leaves it false. *)
Lemma available_ignores_commands :
  let up := fun _ : request =>
    Response 200 (Ok (JDict [("state", JDict [("is_on", JBool false)])])) in
  let down := fun _ : request => TimedOut in
  let off := JDict [("power", JStr "off")] in
  let c0 := __init__ "192.168.1.50" None in
  (last_attempt (snd (run c0 no_history [Poll up; Command off down])) = Some false /\
   available (fst (run c0 no_history [Poll up; Command off down])) = true) /\
  (last_attempt (snd (run c0 no_history [Poll up; Poll down; Command off up]))
   = Some true /\
   available (fst (run c0 no_history [Poll up; Poll down; Command off up])) = false).
Proof.
  repeat split; vm_compute; reflexivity.
Qed.

(** C1, amended: after any sequence of polls and commands on a fresh
    coordinator, the availability flag is true if and only if the most
    recent poll succeeded or no poll has been attempted yet; commands
    never change it. *)
Theorem available_iff_last_poll_succeeded
    (conf_host : string) (conf_port : option Z) (ops : list op) :
  let c0 := __init__ conf_host conf_port in
  (available (fst (run c0 no_history ops)) = true <->
   last_poll (snd (run c0 no_history ops)) <> Some false) /\
  (forall (c : coordinator) (command : json) (io : session),
      available (fst (async_send_command c command io)) = available c).
Proof.
  intros c0. split.
  - rewrite (run_available ops c0 no_history eq_refl).
    unfold expected_available.
    destruct (last_poll (snd (run c0 no_history ops))) as [[|]|];
      split; congruence.
  - intros c command io. pose proof (step_command c command io) as H.
    unfold step in H.
    destruct (async_send_command c command io) as [c' r]. exact H.
Qed.

(** *** The shape of the cache *)

Lemma run_snapshot (ops : list op) :
  forall (c : coordinator) (h : history),
    data c = JNull \/ is_snapshot (data c) ->
    data (fst (run c h ops)) = JNull \/ is_snapshot (data (fst (run c h ops))).
Proof.
  induction ops as [|o ops IH]; intros c h Hinv.
  - exact Hinv.
  - cbn [run]. destruct (step c o) as [c' ok] eqn:E.
    apply IH. destruct o as [io | command io]; unfold step in E.
    + unfold async_refresh in E.
      destruct (update_data_cases c io)
        as [(state & info & _ & _ & E') | (cause & E')];
        rewrite E' in E; injection E as <- _.
      * right. exists state, info. reflexivity.
      * exact Hinv.
    + destruct (send_command_cases c command io)
        as [(result & E') | [(result & state & info & E') | (cause & E')]];
        rewrite E' in E; injection E as <- _.
      * exact Hinv.
      * right. exists state, info. reflexivity.
      * exact Hinv.
Qed.

(** A cached snapshot always has an info block for a command to keep. *)
Lemma snapshot_has_info (d : json) :
  is_snapshot d -> exists info, getitem d "info" = Ok info.
Proof.
  intros (state & info & ->). exists info. reflexivity.
Qed.

(** Before the first successful poll there is no snapshot: a command
    answered with a state block then raises and caches nothing. *)
Lemma command_without_snapshot
    (c : coordinator) (command : json) (io : session) (result state : json) :
  data c = JNull ->
  io (POST (base_url c ++ Const.API_CONTROL) command) = Response 200 (Ok result) ->
  getitem result "state" = Ok state ->
  async_send_command c command io = (c, Raise (UpdateFailed (Some AttributeError))).
Proof.
  intros Hd Hio Hs.
  destruct (PyFacts.getitem_dict _ _ _ Hs) as (kvs & -> & Hkvs).
  unfold async_send_command. rewrite Hio. cbn [Z.eqb Pos.eqb negb contains].
  rewrite Hkvs, Hs, Hd. reflexivity.
Qed.

End CoordinatorFacts.

(* ================================================================= *)
(** ** The discovery scan *)

Module DiscoveryFacts.
Import Discovery.
Local Open Scope Q_scope.

Lemma Qlt_bool_false (x y : Q) : Qlt_bool x y = false -> y <= x.
Proof.
  unfold Qlt_bool. intros H. apply negb_false_iff in H.
  now apply Qle_bool_iff.
Qed.

Lemma Qlt_bool_true (x y : Q) : Qlt_bool x y = true -> x < y.
Proof.
  unfold Qlt_bool. intros H. apply negb_true_iff in H.
  apply Qnot_le_lt. intros Hle. apply Qle_bool_iff in Hle. congruence.
Qed.

Section Scan.

Variable clock : nat -> Q.
Variable _scan_ip : nat -> string -> Z -> option scan_result.
Variable completes_within : Q -> list string -> bool.
Variable local_ips : list string.

Lemma full_batches_start : full_batches clock scan_start.
Proof. intros ev []. Qed.

Lemma full_batches_same_trace (s s' : scan_state) :
  trace s' = trace s -> full_batches clock s -> full_batches clock s'.
Proof. unfold full_batches. intros ->. auto. Qed.

Lemma full_batches_await (s : scan_state) :
  full_batches clock s ->
  elapsed_at clock (pred (reads s)) <= DISCOVERY_TIMEOUT ->
  full_batches clock (await_batch _scan_ip s).
Proof.
  intros Hs He ev Hin. cbn [await_batch trace] in Hin.
  apply in_app_or in Hin. destruct Hin as [Hin | [<- | []]].
  - now apply Hs.
  - split; [exact He | reflexivity].
Qed.

Lemma scan_hosts_full (hosts : list string) :
  forall s, full_batches clock s -> full_batches clock (scan_hosts clock _scan_ip local_ips hosts s).
Proof.
  induction hosts as [|ip_str rest IH]; intros s Hs; cbn [Discovery.scan_hosts].
  - exact Hs.
  - set (s1 := if existsb (String.eqb ip_str) local_ips then s
               else append_task s ip_str).
    assert (H1 : full_batches clock s1).
    { apply (full_batches_same_trace s); [| exact Hs].
      unfold s1. destruct (existsb (String.eqb ip_str) local_ips); reflexivity. }
    destruct (MAX_PARALLEL_SCANS <=? List.length (scan_tasks s1))%nat; [| now apply IH].
    cbn [read_elapsed].
    destruct (Qlt_bool DISCOVERY_TIMEOUT (elapsed_at clock (reads s1))) eqn:E.
    + now apply (full_batches_same_trace s1).
    + apply IH. apply full_batches_await.
      * now apply (full_batches_same_trace s1).
      * cbn [reads pred]. now apply Qlt_bool_false.
Qed.

Lemma scan_networks_full (networks : list (list string)) :
  forall s, full_batches clock s -> full_batches clock (scan_networks clock _scan_ip local_ips networks s).
Proof.
  induction networks as [|hosts rest IH]; intros s Hs;
    cbn [Discovery.scan_networks].
  - exact Hs.
  - cbn [read_elapsed].
    destruct (Qlt_bool DISCOVERY_TIMEOUT (elapsed_at clock (reads s))).
    + now apply (full_batches_same_trace s).
    + apply IH, scan_hosts_full. now apply (full_batches_same_trace s).
Qed.

(** The remaining tasks add nothing to the trace, or one batch awaited
    under [wait_for] with the time left as its timeout. *)
Lemma process_remaining_trace (s : scan_state) :
  trace (process_remaining clock _scan_ip completes_within s) = trace s \/
  exists ev t,
    trace (process_remaining clock _scan_ip completes_within s) = (trace s ++ [ev])%list /\
    timeout ev = Some t /\
    t == DISCOVERY_TIMEOUT - elapsed_at clock (reading ev) /\
    0 < t /\
    batch ev = scan_tasks s.
Proof.
  unfold Discovery.process_remaining.
  destruct (scan_tasks s) as [|task tasks] eqn:Et; [now left|].
  cbn [read_elapsed].
  destruct (Qlt_bool 0 (DISCOVERY_TIMEOUT - elapsed_at clock (reads s))) eqn:E.
  - right. eexists. exists (DISCOVERY_TIMEOUT - elapsed_at clock (reads s)).
    cbn [trace reads pred scan_tasks]. split; [reflexivity|].
    cbn [timeout reading batch]. rewrite Et.
    split; [reflexivity|]. split; [apply Qeq_refl|].
    split; [now apply Qlt_bool_true | reflexivity].
  - now left.
Qed.

End Scan.

(** C2: in every scan, whatever the clock, the probes and the network
    lists, each batch handed to [asyncio.gather] is started right after a
    clock reading at which the elapsed time does not exceed the 60 second
    deadline; only the last batch of the trace can be awaited with a
    timeout, and that timeout is positive and equal to the deadline minus
    the elapsed time just read. *)
Theorem discovery_respects_deadline
    (clock : nat -> Q) (_scan_ip : nat -> string -> Z -> option scan_result)
    (completes_within : Q -> list string -> bool)
    (local_ips : list string) (networks_to_scan : list (list string)) :
  let s := _discover_devices_http clock _scan_ip completes_within local_ips
             networks_to_scan in
  Forall (fun ev => elapsed_at clock (reading ev) <= DISCOVERY_TIMEOUT) (trace s) /\
  exists full final,
    trace s = (full ++ final)%list /\
    Forall (fun ev => timeout ev = None) full /\
    (final = [] \/
     exists ev t,
       final = [ev] /\ timeout ev = Some t /\ 0 < t /\
       t == DISCOVERY_TIMEOUT - elapsed_at clock (reading ev)).
Proof.
  intros s. subst s. unfold _discover_devices_http.
  destruct networks_to_scan as [|hosts rest].
  - split; [constructor|]. exists [], []. repeat split; auto.
  - set (s1 := scan_networks clock _scan_ip local_ips (hosts :: rest) scan_start).
    assert (H1 : full_batches clock s1).
    { apply scan_networks_full, full_batches_start. }
    cbn [read_elapsed snd trace].
    destruct (process_remaining_trace clock _scan_ip completes_within s1)
      as [E | (ev & t & E & Ht & Heq & Hpos & _)]; rewrite E.
    + split.
      * apply Forall_forall. intros ev Hin. now apply H1.
      * exists (trace s1), []. rewrite app_nil_r. repeat split; auto.
        apply Forall_forall. intros ev Hin. now apply H1.
    + split.
      * apply Forall_app. split.
        -- apply Forall_forall. intros ev' Hin. now apply H1.
        -- constructor; [| constructor].
           unfold DISCOVERY_TIMEOUT in *. lra.
      * exists (trace s1), [ev]. repeat split.
        -- apply Forall_forall. intros ev' Hin. now apply H1.
        -- right. exists ev, t. repeat split; assumption.
Qed.

(** Two runs over one network of 34 addresses, the scanner's own being
    10.0.0.7, with nothing answering.  With 10 seconds between clock
    readings the first 30 probes go out at 20 seconds and the last 3 at
    30 seconds with the remaining 30 seconds as timeout; with 25 seconds
    between readings the first batch goes out at 50 seconds and the last
    is never started, 75 seconds being past the deadline. *)
Example scan_in_time :
  map (fun ev => (reading ev, timeout ev, List.length (batch ev)))
    (trace (_discover_devices_http (ticking 10) (fun _ _ _ => None)
              (fun _ _ => true) ["10.0.0.7"] [sample_hosts]))
  = [(2%nat, None, 30%nat); (3%nat, Some (30 # 1), 3%nat)].
Proof. vm_compute. reflexivity. Qed.

Example scan_past_deadline :
  map (fun ev => (reading ev, timeout ev, List.length (batch ev)))
    (trace (_discover_devices_http (ticking 25) (fun _ _ _ => None)
              (fun _ _ => true) ["10.0.0.7"] [sample_hosts]))
  = [(2%nat, None, 30%nat)].
Proof. vm_compute. reflexivity. Qed.

End DiscoveryFacts.

(* ================================================================= *)
(** ** Dicts as association lists *)

Module DictFacts.
Import Py Builtins.

Section Assoc.
Context {A : Type}.
Implicit Types (k : string) (v : A) (kvs : list (string * A)).

Lemma assoc_setitem_same k v kvs : assoc k (setitem k v kvs) = Some v.
Proof.
  induction kvs as [|[k' v'] rest IH]; cbn [setitem assoc].
  - now rewrite String.eqb_refl.
  - destruct (String.eqb k k') eqn:E; cbn [assoc]; rewrite E; auto.
Qed.

Lemma assoc_setitem_other k k' v kvs :
  k' <> k -> assoc k' (setitem k v kvs) = assoc k' kvs.
Proof.
  intros Hne. induction kvs as [|[k0 v0] rest IH]; cbn [setitem assoc].
  - apply String.eqb_neq in Hne. now rewrite Hne.
  - destruct (String.eqb k k0) eqn:E; cbn [assoc].
    + apply String.eqb_eq in E. subst k0.
      apply String.eqb_neq in Hne. now rewrite Hne.
    + now rewrite IH.
Qed.

Lemma assoc_remove_same k kvs : assoc k (remove k kvs) = None.
Proof.
  unfold remove.
  induction kvs as [|[k' v'] rest IH]; cbn [filter assoc fst]; [reflexivity|].
  destruct (String.eqb k k') eqn:E; cbn [negb assoc]; [exact IH|].
  rewrite E. exact IH.
Qed.

Lemma assoc_remove_other k k' kvs :
  k' <> k -> assoc k' (remove k kvs) = assoc k' kvs.
Proof.
  intros Hne. unfold remove.
  induction kvs as [|[k0 v0] rest IH]; cbn [filter assoc fst]; [reflexivity|].
  destruct (String.eqb k k0) eqn:E; cbn [negb assoc].
  - apply String.eqb_eq in E. subst k0.
    apply String.eqb_neq in Hne. rewrite Hne. exact IH.
  - now rewrite IH.
Qed.

Lemma setitem_keys k v kvs :
  forall k', In k' (map fst (setitem k v kvs)) <-> k' = k \/ In k' (map fst kvs).
Proof.
  intros k'. induction kvs as [|[k0 v0] rest IH]; cbn [setitem map fst In].
  - intuition.
  - destruct (String.eqb k k0) eqn:E; cbn [map fst In].
    + apply String.eqb_eq in E. subst k0. intuition.
    + rewrite IH. intuition.
Qed.

Lemma setitem_NoDup k v kvs :
  NoDup (map fst kvs) -> NoDup (map fst (setitem k v kvs)).
Proof.
  induction kvs as [|[k0 v0] rest IH]; cbn [setitem map fst]; intros Hnd.
  - constructor; [intros [] | constructor].
  - inversion Hnd as [|? ? Hnotin Hrest]; subst.
    destruct (String.eqb k k0) eqn:E; cbn [map fst].
    + constructor; assumption.
    + constructor; [| now apply IH].
      rewrite setitem_keys. intros [-> | Hin]; [| contradiction].
      rewrite String.eqb_refl in E. discriminate.
Qed.

Lemma assoc_In k v kvs : assoc k kvs = Some v -> In (k, v) kvs.
Proof.
  induction kvs as [|[k0 v0] rest IH]; cbn [assoc]; [discriminate|].
  destruct (String.eqb k k0) eqn:E.
  - apply String.eqb_eq in E. intros [= <-]. subst. now left.
  - intros H. right. now apply IH.
Qed.

Lemma In_setitem k v kvs k' v' :
  In (k', v') (setitem k v kvs) -> (k' = k /\ v' = v) \/ In (k', v') kvs.
Proof.
  induction kvs as [|[k0 v0] rest IH]; cbn [setitem In].
  - intros [[= <- <-] | []]. now left.
  - destruct (String.eqb k k0) eqn:E; cbn [In].
    + apply String.eqb_eq in E. subst k0.
      intros [[= <- <-] | Hin]; [now left | right; now right].
    + intros [Heq | Hin]; [right; now left|].
      destruct (IH Hin) as [? | ?]; [now left | right; now right].
Qed.

End Assoc.

End DictFacts.

(* ================================================================= *)
(** ** The light entity: attributes, commands and their read-back *)

Module LightEntityFacts.
Import Py Builtins Coordinator Light LightEntity.

Lemma get_raises (v : json) (k : string) (d : json) (e : exn) :
  get v k d = Raise e -> e = AttributeError.
Proof. destruct v; simpl; congruence. Qed.

(** The attributes of four values with the [None] ones dropped. *)
Lemma filtered_attributes (a b c d : json) :
  let attrs :=
    filter (fun kv => negb (is_none (snd kv)))
      [("device_id", a); ("ip_address", b); ("mac_address", c); ("num_leds", d)] in
  assoc "device_id" attrs = (if is_none a then None else Some a) /\
  assoc "ip_address" attrs = (if is_none b then None else Some b) /\
  assoc "mac_address" attrs = (if is_none c then None else Some c) /\
  assoc "num_leds" attrs = (if is_none d then None else Some d) /\
  (forall k v, In (k, v) attrs -> v <> JNull).
Proof.
  cbn [filter snd].
  destruct (is_none a) eqn:Ea; destruct (is_none b) eqn:Eb;
    destruct (is_none c) eqn:Ec; destruct (is_none d) eqn:Ed;
    cbn [negb]; (repeat split; try reflexivity);
    intros k v Hin; cbn [In] in Hin;
    repeat (destruct Hin as [[= <- <-] | Hin]; [intros ->; discriminate|]);
    destruct Hin.
Qed.

Lemma get_shown (k : string) (kvs : list (string * json)) (v : json) :
  get (JDict kvs) k JNull = Ok v ->
  (if is_none v then None else Some v) = shown k kvs.
Proof.
  unfold shown. cbn [get]. destruct (assoc k kvs); intros [= <-]; reflexivity.
Qed.

(** X1: when the cached info block and its device and capabilities
    entries are dicts (a missing entry counts as an empty dict), the
    extra attributes are exactly the device's id, ip and mac and the
    capabilities' num_leds, each verbatim and only if present and not
    [None]; no attribute is ever [None]. *)
Theorem extra_state_attributes_shown
    (data info : json) (capabilities device : list (string * json)) :
  get data "info" (JDict []) = Ok info ->
  get info "capabilities" (JDict []) = Ok (JDict capabilities) ->
  get info "device" (JDict []) = Ok (JDict device) ->
  exists attrs,
    extra_state_attributes data = Ok attrs /\
    assoc "device_id" attrs = shown "id" device /\
    assoc "ip_address" attrs = shown "ip" device /\
    assoc "mac_address" attrs = shown "mac" device /\
    assoc "num_leds" attrs = shown "num_leds" capabilities /\
    (forall k v, In (k, v) attrs -> v <> JNull).
Proof.
  intros Hi Hc Hd. unfold extra_state_attributes.
  rewrite Hi. cbn [bind]. rewrite Hc. cbn [bind]. rewrite Hd. cbn [bind].
  destruct (get (JDict device) "id" JNull) as [a|] eqn:Ea; [|discriminate].
  destruct (get (JDict device) "ip" JNull) as [b|] eqn:Eb; [|discriminate].
  destruct (get (JDict device) "mac" JNull) as [c|] eqn:Ec; [|discriminate].
  destruct (get (JDict capabilities) "num_leds" JNull) as [d|] eqn:Ed; [|discriminate].
  cbn [bind try_except]. eexists. split; [reflexivity|].
  destruct (filtered_attributes a b c d) as (H1 & H2 & H3 & H4 & H5).
  rewrite H1, H2, H3, H4.
  rewrite (get_shown _ _ _ Ea), (get_shown _ _ _ Eb), (get_shown _ _ _ Ec),
    (get_shown _ _ _ Ed).
  repeat split. exact H5.
Qed.

Lemma extra_state_attributes_shown_witness :
  let device := [("id", JStr "pico-1"); ("ip", JStr "192.168.1.50"); ("mac", JNull)] in
  let info := JDict [("device", JDict device)] in
  let data := JDict [("state", JDict []); ("info", info)] in
  (get data "info" (JDict []) = Ok info /\
   get info "capabilities" (JDict []) = Ok (JDict []) /\
   get info "device" (JDict []) = Ok (JDict device)) /\
  exists attrs,
    extra_state_attributes data = Ok attrs /\
    assoc "device_id" attrs = shown "id" device /\
    assoc "ip_address" attrs = shown "ip" device /\
    assoc "mac_address" attrs = shown "mac" device /\
    assoc "num_leds" attrs = shown "num_leds" [] /\
    (forall k v, In (k, v) attrs -> v <> JNull).
Proof.
  intros device info data. split.
  - repeat split.
  - apply (extra_state_attributes_shown data info [] device); reflexivity.
Defined.

(** Whatever the cache holds, the attributes are returned or
    [AttributeError] leaves the property. *)
Lemma extra_state_attributes_raises_only (data : json) (e : exn) :
  extra_state_attributes data = Raise e -> e = AttributeError.
Proof.
  unfold extra_state_attributes.
  repeat
    match goal with
    | |- context [bind (get ?v ?k ?d) _] =>
        let E := fresh "E" in
        destruct (get v k d) eqn:E; cbn [bind];
        [| apply get_raises in E; subst; cbn [try_except KeyError_TypeError];
           congruence]
    end.
  cbn [try_except]. discriminate.
Qed.

(** X2: the extra attributes are never defaulted to an empty dict: the
    only exception their computation can raise is [AttributeError], which
    the [except] clause does not name, so whatever is raised leaves the
    property; this happens in particular whenever the cache is not a
    dict, [None] before the first refresh included, and whenever the info
    block is present but not a dict. *)
Theorem extra_state_attributes_raises (data : json) :
  (forall e, extra_state_attributes data = Raise e -> e = AttributeError) /\
  (forall attrs, extra_state_attributes data = Ok attrs ->
     exists kvs, data = JDict kvs /\
       (assoc "info" kvs = None \/ exists info, assoc "info" kvs = Some (JDict info))) /\
  ((forall kvs, data <> JDict kvs) ->
   extra_state_attributes data = Raise AttributeError) /\
  (forall kvs info,
     data = JDict kvs -> assoc "info" kvs = Some info ->
     (forall fields, info <> JDict fields) ->
     extra_state_attributes data = Raise AttributeError).
Proof.
  split; [| split; [| split]].
  - intros e. apply extra_state_attributes_raises_only.
  - intros attrs H. destruct data as [|b|n|f|s|l|kvs]; try discriminate.
    exists kvs. split; [reflexivity|].
    unfold extra_state_attributes in H. cbn [get bind] in H.
    destruct (assoc "info" kvs) as [info|]; [| now left].
    right. destruct info as [|b|n|f|s|l|fields]; try discriminate. eauto.
  - intros H. destruct data; try reflexivity. now destruct (H kvs).
  - intros kvs info -> Hi Hnd. unfold extra_state_attributes. cbn [get bind].
    rewrite Hi. destruct info; try reflexivity. now destruct (Hnd kvs0).
Qed.

(** X3: over the consumer's range the outgoing brightness is monotone,
    stays within 1..100, sends 0 as 1 and 255 as 100; over the device's
    range the presented brightness is monotone, shows 0 as 0 and 100 as
    255. *)
Theorem brightness_conversions_monotone (b1 b2 p1 p2 : Z) :
  0 <= b1 <= b2 -> b2 <= 255 -> 0 <= p1 <= p2 -> p2 <= 100 ->
  (exists d1 d2,
      brightness_to_device b1 = Ok d1 /\ brightness_to_device b2 = Ok d2 /\
      1 <= d1 <= d2 /\ d2 <= 100) /\
  (exists c1 c2,
      percent_to_255 (JInt p1) = Ok c1 /\ percent_to_255 (JInt p2) = Ok c2 /\
      0 <= c1 <= c2 /\ c2 <= 255) /\
  brightness_to_device 0 = Ok 1 /\ brightness_to_device 255 = Ok 100 /\
  percent_to_255 (JInt 0) = Ok 0 /\ percent_to_255 (JInt 100) = Ok 255.
Proof.
  intros Hb1 Hb2 Hp1 Hp2. split; [| split].
  - exists (Z.max 1 (b1 * 100 / 255)), (Z.max 1 (b2 * 100 / 255)).
    split; [apply LightFacts.brightness_to_device_trunc; lia|].
    split; [apply LightFacts.brightness_to_device_trunc; lia|].
    assert (b1 * 100 / 255 <= b2 * 100 / 255) by (apply Z.div_le_mono; lia).
    assert (b2 * 100 / 255 <= 100) by (apply Z.div_le_upper_bound; lia).
    lia.
  - exists (p1 * 255 / 100), (p2 * 255 / 100).
    split; [apply LightFacts.percent_to_255_trunc; lia|].
    split; [apply LightFacts.percent_to_255_trunc; lia|].
    assert (p1 * 255 / 100 <= p2 * 255 / 100) by (apply Z.div_le_mono; lia).
    assert (p2 * 255 / 100 <= 255) by (apply Z.div_le_upper_bound; lia).
    assert (0 <= p1 * 255 / 100) by (apply Z.div_pos; lia).
    lia.
  - repeat split; vm_compute; reflexivity.
Qed.

Lemma brightness_conversions_monotone_witness :
  (0 <= 127 <= 128 /\ 128 <= 255 /\ 0 <= 49 <= 50 /\ 50 <= 100) /\
  (exists d1 d2,
      brightness_to_device 127 = Ok d1 /\ brightness_to_device 128 = Ok d2 /\
      1 <= d1 <= d2 /\ d2 <= 100) /\
  (exists c1 c2,
      percent_to_255 (JInt 49) = Ok c1 /\ percent_to_255 (JInt 50) = Ok c2 /\
      0 <= c1 <= c2 /\ c2 <= 255) /\
  brightness_to_device 0 = Ok 1 /\ brightness_to_device 255 = Ok 100 /\
  percent_to_255 (JInt 0) = Ok 0 /\ percent_to_255 (JInt 100) = Ok 255.
Proof.
  split; [lia | apply (brightness_conversions_monotone 127 128 49 50); lia].
Defined.

(** X4: a turn-on command always says power "on"; it carries a
    brightness only when one was asked for, the colour asked for with its
    three components unchanged, and an effect together with speed 50 or
    neither; it has no other fields. *)
Theorem turn_on_command_fields (kw : kwargs) (command : list (string * json)) :
  turn_on_command kw = Ok command ->
  assoc "power" command = Some (JStr "on") /\
  (assoc "brightness" command = None <-> kw_brightness kw = None) /\
  assoc "color" command =
    option_map
      (fun rgb : Z * Z * Z =>
         let '(r, g, b) := rgb in
         JDict [("r", JInt r); ("g", JInt g); ("b", JInt b)])
      (kw_rgb_color kw) /\
  assoc "effect" command = option_map JStr (kw_effect kw) /\
  assoc "speed" command = option_map (fun _ => JInt 50) (kw_effect kw) /\
  (forall k v, In (k, v) command ->
     In k ["power"; "brightness"; "color"; "effect"; "speed"]).
Proof.
  destruct kw as [kb krgb keff]. unfold turn_on_command.
  cbn [kw_brightness kw_rgb_color kw_effect].
  destruct kb as [b|].
  - destruct (brightness_to_device b) as [p|e]; cbn [bind]; [|discriminate].
    destruct krgb as [[[r g] b']|]; destruct keff as [eff|]; intros [= <-];
      (repeat split; try reflexivity; try discriminate;
       intros k v Hin; cbn in Hin; cbn; intuition congruence).
  - cbn [bind].
    destruct krgb as [[[r g] b']|]; destruct keff as [eff|]; intros [= <-];
      (repeat split; try reflexivity; try discriminate;
       intros k v Hin; cbn in Hin; cbn; intuition congruence).
Qed.

Lemma turn_on_command_fields_witness :
  let kw := {| kw_brightness := None; kw_rgb_color := Some (0, 128, 255);
               kw_effect := Some "rainbow" |} in
  let command :=
    [("power", JStr "on");
     ("color", JDict [("r", JInt 0); ("g", JInt 128); ("b", JInt 255)]);
     ("effect", JStr "rainbow"); ("speed", JInt 50)] in
  turn_on_command kw = Ok command /\
  assoc "power" command = Some (JStr "on") /\
  (assoc "brightness" command = None <-> kw_brightness kw = None) /\
  assoc "color" command =
    option_map
      (fun rgb : Z * Z * Z =>
         let '(r, g, b) := rgb in
         JDict [("r", JInt r); ("g", JInt g); ("b", JInt b)])
      (kw_rgb_color kw) /\
  assoc "effect" command = option_map JStr (kw_effect kw) /\
  assoc "speed" command = option_map (fun _ => JInt 50) (kw_effect kw) /\
  (forall k v, In (k, v) command ->
     In k ["power"; "brightness"; "color"; "effect"; "speed"]).
Proof.
  intros kw command. split.
  - reflexivity.
  - apply (turn_on_command_fields kw command). reflexivity.
Defined.

End LightEntityFacts.

(* ================================================================= *)
(** ** The coordinator over polls, commands and the entity's calls *)

Module CoordinatorRunFacts.
Import Py Builtins Coordinator CoordinatorRuns Light LightEntity.

(** A command either leaves the coordinator as it was, or replaces the
    cache by a snapshot whose info block is the one it found. *)
Lemma send_command_effect (c : coordinator) (command : json) (io : session) :
  fst (async_send_command c command io) = c \/
  exists state info,
    get (data c) "info" (JDict []) = Ok info /\
    fst (async_send_command c command io) =
    set_data c (JDict [("state", state); ("info", info)]).
Proof.
  unfold async_send_command.
  destruct (io (POST (base_url c ++ Const.API_CONTROL) command))
    as [| |status [result|e]]; try (now left).
  - destruct (Z.eqb status 200); cbn [negb]; [| now left].
    destruct (contains "state" result) as [[|]|e]; try (now left).
    + destruct (getitem result "state") as [state|e]; cbn [bind].
      * destruct (get (data c) "info" (JDict [])) as [info|e] eqn:E; cbn [bind].
        -- right. exists state, info. split; reflexivity.
        -- left. destruct e; reflexivity.
      * left. destruct e; reflexivity.
    + left. destruct e; reflexivity.
  - destruct (Z.eqb status 200); cbn [negb]; [| now left].
    left. destruct e; reflexivity.
Qed.

Lemma send_command_with_state
    (c : coordinator) (command : json) (io : session) (result state info : json) :
  io (POST (base_url c ++ Const.API_CONTROL) command) = Response 200 (Ok result) ->
  getitem result "state" = Ok state ->
  getitem (data c) "info" = Ok info ->
  async_send_command c command io =
  (set_data c (JDict [("state", state); ("info", info)]), Ok result).
Proof.
  intros Hio Hs Hi.
  destruct (PyFacts.getitem_dict _ _ _ Hs) as (kvs & -> & Hkvs).
  destruct (PyFacts.getitem_dict _ _ _ Hi) as (old & Hold & Hinfo).
  unfold async_send_command. rewrite Hio. cbn [Z.eqb Pos.eqb negb contains].
  rewrite Hkvs, Hs. cbn [bind]. rewrite Hold. cbn [get]. rewrite Hinfo.
  reflexivity.
Qed.

(** X5: when the device answers a turn-on command with status 200 and
    a state block, [async_turn_on] returns and, with no poll in between,
    the entity's four state properties read what that state block says,
    while the extra attributes are what they were. *)
Theorem turn_on_reads_back
    (c : coordinator) (kw : kwargs) (io : session)
    (command : list (string * json)) (result state info : json) :
  turn_on_command kw = Ok command ->
  io (POST (base_url c ++ Const.API_CONTROL) (JDict command))
    = Response 200 (Ok result) ->
  getitem result "state" = Ok state ->
  getitem (data c) "info" = Ok info ->
  exists c',
    async_turn_on c kw io = (c', Ok tt) /\
    is_on (data c') = is_on (JDict [("state", state)]) /\
    brightness (data c') = brightness (JDict [("state", state)]) /\
    rgb_color (data c') = rgb_color (JDict [("state", state)]) /\
    effect (data c') = effect (JDict [("state", state)]) /\
    extra_state_attributes (data c') = extra_state_attributes (data c).
Proof.
  intros Hcmd Hio Hs Hi.
  exists (set_data c (JDict [("state", state); ("info", info)])).
  unfold async_turn_on. rewrite Hcmd.
  rewrite (send_command_with_state c (JDict command) io result state info Hio Hs Hi).
  repeat split.
  destruct (PyFacts.getitem_dict _ _ _ Hi) as (old & Hold & Hinfo).
  unfold extra_state_attributes. rewrite Hold. cbn [data set_data get assoc].
  cbn. rewrite Hinfo. reflexivity.
Qed.

Lemma turn_on_reads_back_witness :
  let info := JDict [("device", JDict [("id", JStr "pico-1")])] in
  let c := set_data (__init__ "192.168.1.50" None)
             (JDict [("state", JDict [("is_on", JBool false)]); ("info", info)]) in
  let kw := {| kw_brightness := Some 128; kw_rgb_color := None; kw_effect := None |} in
  let command := [("power", JStr "on"); ("brightness", JInt 50)] in
  let state := JDict [("is_on", JBool true); ("brightness", JInt 50)] in
  let result := JDict [("state", state)] in
  let io := fun _ : request => Response 200 (Ok result) in
  (turn_on_command kw = Ok command /\
   io (POST (base_url c ++ Const.API_CONTROL) (JDict command))
     = Response 200 (Ok result) /\
   getitem result "state" = Ok state /\
   getitem (data c) "info" = Ok info) /\
  exists c',
    async_turn_on c kw io = (c', Ok tt) /\
    is_on (data c') = is_on (JDict [("state", state)]) /\
    brightness (data c') = brightness (JDict [("state", state)]) /\
    rgb_color (data c') = rgb_color (JDict [("state", state)]) /\
    effect (data c') = effect (JDict [("state", state)]) /\
    extra_state_attributes (data c') = extra_state_attributes (data c).
Proof.
  intros info c kw command state result io. split.
  - repeat split.
  - apply (turn_on_reads_back c kw io command result state info); reflexivity.
Defined.

Lemma refresh_on_success
    (c : coordinator) (io : session) (state info : json) :
  io (GET (base_url c ++ Const.API_STATE)) = Response 200 (Ok state) ->
  io (GET (base_url c ++ Const.API_INFO)) = Response 200 (Ok info) ->
  async_refresh c io =
  ({| host := host c; port := port c;
      data := JDict [("state", state); ("info", info)];
      _available := true |},
   Ok tt).
Proof.
  intros Hs Hi. unfold async_refresh, _async_update_data, _get_state, _get_info.
  rewrite Hs, Hi. reflexivity.
Qed.

(** X6: when both fetches of a poll are answered with status 200 and
    a body that parses, the refresh returns, the device is marked
    available and the cache becomes the two bodies side by side, whatever
    it was before. *)
Theorem poll_success_commits (c : coordinator) (io : session) (state info : json) :
  io (GET (base_url c ++ Const.API_STATE)) = Response 200 (Ok state) ->
  io (GET (base_url c ++ Const.API_INFO)) = Response 200 (Ok info) ->
  async_refresh c io =
  ({| host := host c; port := port c;
      data := JDict [("state", state); ("info", info)];
      _available := true |},
   Ok tt).
Proof. apply refresh_on_success. Qed.

Lemma poll_success_commits_witness :
  let c := set_available (__init__ "192.168.1.50" (Some 8080)) false in
  let state := JDict [("is_on", JBool true); ("brightness", JInt 40)] in
  let info := JDict [("device", JDict [("id", JStr "pico-1")])] in
  let io := fun r : request =>
    match r with
    | GET "http://192.168.1.50:8080/state" => Response 200 (Ok state)
    | GET "http://192.168.1.50:8080/info" => Response 200 (Ok info)
    | _ => TransportError
    end in
  (io (GET (base_url c ++ Const.API_STATE)) = Response 200 (Ok state) /\
   io (GET (base_url c ++ Const.API_INFO)) = Response 200 (Ok info)) /\
  async_refresh c io =
  ({| host := host c; port := port c;
      data := JDict [("state", state); ("info", info)];
      _available := true |},
   Ok tt).
Proof.
  intros c state info io. split.
  - split; reflexivity.
  - apply (poll_success_commits c io state info); reflexivity.
Defined.

(** X7: when the state fetch of a poll fails, the info endpoint plays
    no part: the refresh ends the same way whatever any other request
    would have been answered. *)
Theorem poll_stops_at_failed_state (c : coordinator) (io io' : session) :
  fetch_ok (io (GET (base_url c ++ Const.API_STATE))) = false ->
  io' (GET (base_url c ++ Const.API_STATE)) = io (GET (base_url c ++ Const.API_STATE)) ->
  async_refresh c io' = async_refresh c io.
Proof.
  intros Hfail Heq.
  unfold async_refresh, _async_update_data, _get_state. rewrite Heq.
  unfold fetch_ok in Hfail.
  destruct (io (GET (base_url c ++ Const.API_STATE))) as [| |status [v|e]];
    try reflexivity.
  - rewrite Hfail. reflexivity.
  - destruct (Z.eqb status 200); reflexivity.
Qed.

Lemma poll_stops_at_failed_state_witness :
  let c := __init__ "192.168.1.50" None in
  let io := fun _ : request => Response 503 (Ok JNull) in
  let io' := fun r : request =>
    match r with
    | GET "http://192.168.1.50:80/info" => Response 200 (Ok (JDict []))
    | _ => Response 503 (Ok JNull)
    end in
  (fetch_ok (io (GET (base_url c ++ Const.API_STATE))) = false /\
   io' (GET (base_url c ++ Const.API_STATE)) = io (GET (base_url c ++ Const.API_STATE))) /\
  async_refresh c io' = async_refresh c io.
Proof.
  intros c io io'. split.
  - split; reflexivity.
  - apply (poll_stops_at_failed_state c io io'); reflexivity.
Defined.

(** *** The cache over a run *)

Lemma command_on_empty_cache (c : coordinator) (command : json) (io : session) :
  data c = JNull -> fst (async_send_command c command io) = c.
Proof.
  intros Hd.
  destruct (send_command_effect c command io) as [H | (state & info & Hget & _)];
    [exact H|].
  rewrite Hd in Hget. discriminate.
Qed.

Lemma step_keeps_snapshot (c : coordinator) (o : op) :
  is_snapshot (data c) -> is_snapshot (data (fst (step c o))).
Proof.
  intros Hs. destruct o as [io | command io]; unfold step.
  - unfold async_refresh.
    destruct (CoordinatorFacts.update_data_cases c io)
      as [(state & info & _ & _ & E) | (cause & E)]; rewrite E; cbn.
    + exists state, info. reflexivity.
    + exact Hs.
  - destruct (send_command_effect c command io) as [E | (state & info & _ & E)];
      destruct (async_send_command c command io) as [c' r]; cbn [fst] in *;
      subst c'.
    + exact Hs.
    + exists state, info. reflexivity.
Qed.

Lemma run_keeps_snapshot (ops : list op) :
  forall (c : coordinator) (h : history),
    is_snapshot (data c) -> is_snapshot (data (fst (run c h ops))).
Proof.
  induction ops as [|o ops IH]; intros c h Hs; [exact Hs|].
  cbn [run]. pose proof (step_keeps_snapshot c o Hs) as H.
  destruct (step c o) as [c' ok]. now apply IH.
Qed.

Lemma poll_step_data (c : coordinator) (io : session) :
  (snd (step c (Poll io)) = true /\ is_snapshot (data (fst (step c (Poll io))))) \/
  (snd (step c (Poll io)) = false /\ data (fst (step c (Poll io))) = data c).
Proof.
  unfold step, async_refresh.
  destruct (CoordinatorFacts.update_data_cases c io)
    as [(state & info & _ & _ & E) | (cause & E)]; rewrite E.
  - left. split; [reflexivity|]. exists state, info. reflexivity.
  - right. split; reflexivity.
Qed.

Lemma run_empty_cache (ops : list op) :
  forall (c : coordinator) (h : history),
    data c = JNull ->
    (data (fst (run c h ops)) = JNull <-> some_poll_succeeded c ops = false).
Proof.
  induction ops as [|o ops IH]; intros c h Hd.
  - cbn. tauto.
  - unfold some_poll_succeeded. cbn [run outcomes].
    destruct o as [io | command io].
    + destruct (poll_step_data c io) as [[Hok Hsnap] | [Hok Hsame]];
        destruct (step c (Poll io)) as [c' ok]; cbn [fst snd] in *; subst ok;
        cbn [combine existsb is_poll fst snd andb orb].
      * split; [| discriminate].
        intros Hnull. pose proof (run_keeps_snapshot ops c' (record_outcome h (Poll io) true) Hsnap)
          as (s & i & Hs).
        rewrite Hs in Hnull. discriminate.
      * apply IH. now rewrite Hsame.
    + pose proof (command_on_empty_cache c command io Hd) as Hc.
      unfold step.
      destruct (async_send_command c command io) as [c' r]. cbn [fst] in Hc. subst c'.
      cbn [combine existsb is_poll fst snd andb orb].
      now apply IH.
Qed.

(** X8: over any sequence of polls and commands on a fresh coordinator,
    the cache is [None] exactly as long as no poll has succeeded:
    commands alone never fill it, and once filled it never goes back to
    [None]. *)
Theorem cache_empty_until_first_successful_poll
    (conf_host : string) (conf_port : option Z) (ops : list op) :
  let c0 := __init__ conf_host conf_port in
  (data (fst (run c0 no_history ops)) = JNull <->
   some_poll_succeeded c0 ops = false) /\
  (some_poll_succeeded c0 ops = true ->
   is_snapshot (data (fst (run c0 no_history ops)))).
Proof.
  intros c0.
  pose proof (run_empty_cache ops c0 no_history eq_refl) as H.
  split; [exact H|].
  intros Hp.
  destruct (CoordinatorFacts.run_snapshot ops c0 no_history (or_introl eq_refl))
    as [Hnull | Hsnap]; [| exact Hsnap].
  apply H in Hnull. congruence.
Qed.

(** The info block over commands. *)
Lemma run_commands_info (ops : list op) :
  forall (c : coordinator) (h : history) (info : json),
    only_commands ops = true ->
    getitem (data c) "info" = Ok info ->
    getitem (data (fst (run c h ops))) "info" = Ok info /\
    host (fst (run c h ops)) = host c /\
    port (fst (run c h ops)) = port c /\
    available (fst (run c h ops)) = available c.
Proof.
  induction ops as [|o ops IH]; intros c h info Hall Hi; [now repeat split|].
  cbn [only_commands forallb] in Hall. apply andb_true_iff in Hall as [Ho Hall].
  destruct o as [io | command io]; [discriminate|].
  cbn [run]. unfold step.
  destruct (send_command_effect c command io) as [E | (state & info' & Hget & E)];
    destruct (async_send_command c command io) as [c' r]; cbn [fst] in E; subst c'.
  - now apply IH.
  - destruct (PyFacts.getitem_dict _ _ _ Hi) as (old & Hold & Hinfo).
    rewrite Hold in Hget. cbn [get] in Hget. rewrite Hinfo in Hget.
    injection Hget as <-.
    destruct (IH (set_data c (JDict [("state", state); ("info", info)]))
                (record_outcome h (Command command io) (is_ok r)) info Hall eq_refl)
      as (H1 & H2 & H3 & H4).
    repeat split; assumption.
Qed.

(** X9: over any sequence of commands with no poll among them, however
    each one ends, the cached info block, the target address and the
    availability flag stay what they were. *)
Theorem commands_keep_info
    (c : coordinator) (h : history) (ops : list op) (info : json) :
  only_commands ops = true ->
  getitem (data c) "info" = Ok info ->
  getitem (data (fst (run c h ops))) "info" = Ok info /\
  host (fst (run c h ops)) = host c /\
  port (fst (run c h ops)) = port c /\
  available (fst (run c h ops)) = available c.
Proof. apply run_commands_info. Qed.

Lemma commands_keep_info_witness :
  let info := JDict [("device", JDict [("id", JStr "pico-1")])] in
  let c := set_data (__init__ "192.168.1.50" None)
             (JDict [("state", JDict [("is_on", JBool false)]); ("info", info)]) in
  let on := JDict [("power", JStr "on")] in
  let answer := fun _ : request =>
    Response 200 (Ok (JDict [("state", JDict [("is_on", JBool true)])])) in
  let silent := fun _ : request => TimedOut in
  let ops := [Command on answer; Command on silent; Command on answer] in
  (only_commands ops = true /\ getitem (data c) "info" = Ok info) /\
  getitem (data (fst (run c no_history ops))) "info" = Ok info /\
  host (fst (run c no_history ops)) = host c /\
  port (fst (run c no_history ops)) = port c /\
  available (fst (run c no_history ops)) = available c.
Proof.
  intros info c on answer silent ops. split.
  - split; reflexivity.
  - apply (commands_keep_info c no_history ops info); reflexivity.
Defined.

End CoordinatorRunFacts.

(* ================================================================= *)
(** ** Setting up, unloading and reloading an entry *)

Module SetupFacts.
Import Py Builtins Coordinator Setup.




(** X11: when both fetches of the first refresh succeed, setup returns
    and registers under the entry's id a coordinator for the entry's host
    and port (80 when none is configured) that is available and caches
    the two bodies; the coordinators of other entries are untouched. *)
Theorem setup_registers (hass : hass_data) (entry : config_entry) (io : session)
    (state info : json) :
  let c0 := __init__ (entry_host entry) (entry_port entry) in
  io (GET (base_url c0 ++ Const.API_STATE)) = Response 200 (Ok state) ->
  io (GET (base_url c0 ++ Const.API_INFO)) = Response 200 (Ok info) ->
  exists hass',
    async_setup_entry hass entry io = (hass', SetupDone) /\
    registered hass' (entry_id entry) =
      Some {| host := entry_host entry;
              port := match entry_port entry with
                      | Some p => p
                      | None => 80
                      end;
              data := JDict [("state", state); ("info", info)];
              _available := true |} /\
    (forall id, id <> entry_id entry -> registered hass' id = registered hass id).
Proof.
  intros c0 Hs Hi. unfold async_setup_entry, async_config_entry_first_refresh.
  fold c0. rewrite (CoordinatorRunFacts.refresh_on_success c0 io state info Hs Hi).
  eexists. split; [reflexivity|]. cbn [registered]. split.
  - rewrite DictFacts.assoc_setitem_same. reflexivity.
  - intros id Hne. rewrite DictFacts.assoc_setitem_other by exact Hne.
    destruct hass; reflexivity.
Qed.

Lemma setup_registers_witness :
  let hass : hass_data := Some [("entry-a", __init__ "192.168.1.60" None)] in
  let entry := {| entry_id := "entry-b"; entry_host := "192.168.1.50";
                  entry_port := None |} in
  let state := JDict [("is_on", JBool false)] in
  let info := JDict [("device", JDict [("id", JStr "pico-1")])] in
  let io := fun r : request =>
    match r with
    | GET "http://192.168.1.50:80/state" => Response 200 (Ok state)
    | _ => Response 200 (Ok info)
    end in
  let c0 := __init__ (entry_host entry) (entry_port entry) in
  (io (GET (base_url c0 ++ Const.API_STATE)) = Response 200 (Ok state) /\
   io (GET (base_url c0 ++ Const.API_INFO)) = Response 200 (Ok info)) /\
  exists hass',
    async_setup_entry hass entry io = (hass', SetupDone) /\
    registered hass' (entry_id entry) =
      Some {| host := entry_host entry;
              port := match entry_port entry with
                      | Some p => p
                      | None => 80
                      end;
              data := JDict [("state", state); ("info", info)];
              _available := true |} /\
    (forall id, id <> entry_id entry -> registered hass' id = registered hass id).
Proof.
  intros hass entry state info io c0. split.
  - split; reflexivity.
  - apply (setup_registers hass entry io state info); reflexivity.
Defined.

Lemma setup_done (hass hass' : hass_data) (entry : config_entry) (io : session) :
  async_setup_entry hass entry io = (hass', SetupDone) ->
  exists c,
    async_refresh (__init__ (entry_host entry) (entry_port entry)) io = (c, Ok tt) /\
    hass' = Some (setitem (entry_id entry) c
                    (match hass with Some d => d | None => [] end)).
Proof.
  unfold async_setup_entry, async_config_entry_first_refresh.
  destruct (async_refresh (__init__ (entry_host entry) (entry_port entry)) io)
    as [c [[]|e]]; [| discriminate].
  intros [= <-]. eauto.
Qed.

(** X12: unloading an entry that setup has registered, once the
    platforms unloaded, returns [True] and takes exactly that entry's
    coordinator out of [hass.data]: the id is no longer registered and
    every other id is as before the setup. *)
Theorem unload_undoes_setup
    (hass hass1 : hass_data) (entry : config_entry) (io : session) :
  async_setup_entry hass entry io = (hass1, SetupDone) ->
  exists hass2,
    async_unload_entry hass1 entry true = (hass2, Ok true) /\
    registered hass2 (entry_id entry) = None /\
    (forall id, id <> entry_id entry -> registered hass2 id = registered hass id).
Proof.
  intros Hsetup. destruct (setup_done _ _ _ _ Hsetup) as (c & _ & ->).
  unfold async_unload_entry, pop. rewrite DictFacts.assoc_setitem_same.
  eexists. split; [reflexivity|]. cbn [registered]. split.
  - apply DictFacts.assoc_remove_same.
  - intros id Hne. rewrite DictFacts.assoc_remove_other by exact Hne.
    rewrite DictFacts.assoc_setitem_other by exact Hne.
    destruct hass; reflexivity.
Qed.

Lemma unload_undoes_setup_witness :
  let hass : hass_data := Some [("entry-a", __init__ "192.168.1.60" None)] in
  let entry := {| entry_id := "entry-b"; entry_host := "192.168.1.50";
                  entry_port := None |} in
  let io := fun _ : request => Response 200 (Ok (JDict [])) in
  let hass1 := fst (async_setup_entry hass entry io) in
  async_setup_entry hass entry io = (hass1, SetupDone) /\
  exists hass2,
    async_unload_entry hass1 entry true = (hass2, Ok true) /\
    registered hass2 (entry_id entry) = None /\
    (forall id, id <> entry_id entry -> registered hass2 id = registered hass id).
Proof.
  intros hass entry io hass1. split.
  - reflexivity.
  - apply (unload_undoes_setup hass hass1 entry io). reflexivity.
Defined.

(** X13: unloading an entry that has no coordinator registered, with
    the platforms unloaded, raises [KeyError] and leaves [hass.data] as it
    was. *)
Theorem unload_unregistered (hass : hass_data) (entry : config_entry) :
  registered hass (entry_id entry) = None ->
  async_unload_entry hass entry true = (hass, Raise KeyError).
Proof.
  intros H. unfold async_unload_entry, pop.
  destruct hass as [domain|]; [| reflexivity].
  cbn [registered] in H. rewrite H. reflexivity.
Qed.

Lemma unload_unregistered_witness :
  let hass : hass_data := Some [("entry-a", __init__ "192.168.1.60" None)] in
  let entry := {| entry_id := "entry-b"; entry_host := "192.168.1.50";
                  entry_port := None |} in
  registered hass (entry_id entry) = None /\
  async_unload_entry hass entry true = (hass, Raise KeyError).
Proof.
  intros hass entry. split.
  - reflexivity.
  - apply (unload_unregistered hass entry). reflexivity.
Defined.

(** X14: a reload that completes leaves registered under the entry's
    id the coordinator a fresh setup polls into being, so nothing cached
    by the old coordinator survives; this holds whether or not the
    platforms unloaded, and other entries keep their coordinators. *)
Theorem reload_registers_fresh
    (hass hass' : hass_data) (entry : config_entry) (unload_ok : bool)
    (io : session) :
  async_reload_entry hass entry unload_ok io = (hass', Reloaded) ->
  exists c,
    async_refresh (__init__ (entry_host entry) (entry_port entry)) io = (c, Ok tt) /\
    registered hass' (entry_id entry) = Some c /\
    (forall id, id <> entry_id entry -> registered hass' id = registered hass id).
Proof.
  unfold async_reload_entry.
  destruct (async_unload_entry hass entry unload_ok) as [hass1 [ok|e]] eqn:Eu;
    [| discriminate].
  destruct (async_setup_entry hass1 entry io) as [hass2 [|cause]] eqn:Es;
    [| discriminate].
  intros [= <-]. destruct (setup_done _ _ _ _ Es) as (c & Hc & ->).
  exists c. split; [exact Hc|]. cbn [registered]. split.
  - apply DictFacts.assoc_setitem_same.
  - intros id Hne. rewrite DictFacts.assoc_setitem_other by exact Hne.
    unfold async_unload_entry in Eu. destruct unload_ok.
    + destruct hass as [domain|]; [| discriminate].
      unfold pop in Eu. destruct (assoc (entry_id entry) domain); [| discriminate].
      injection Eu as <- _. cbn [registered].
      now apply DictFacts.assoc_remove_other.
    + injection Eu as <- _. destruct hass; reflexivity.
Qed.

Lemma reload_registers_fresh_witness :
  let stale := set_data (__init__ "192.168.1.50" None)
                 (JDict [("state", JDict [("is_on", JBool true)]);
                         ("info", JDict [])]) in
  let hass : hass_data := Some [("entry-b", stale)] in
  let entry := {| entry_id := "entry-b"; entry_host := "192.168.1.50";
                  entry_port := None |} in
  let io := fun _ : request => Response 200 (Ok (JDict [])) in
  let hass' := fst (async_reload_entry hass entry false io) in
  async_reload_entry hass entry false io = (hass', Reloaded) /\
  exists c,
    async_refresh (__init__ (entry_host entry) (entry_port entry)) io = (c, Ok tt) /\
    registered hass' (entry_id entry) = Some c /\
    (forall id, id <> entry_id entry -> registered hass' id = registered hass id).
Proof.
  intros stale hass entry io hass'. split.
  - reflexivity.
  - apply (reload_registers_fresh hass hass' entry false io). reflexivity.
Defined.

End SetupFacts.

(* ================================================================= *)
(** ** Validation, the probe and the flow steps *)

Module ConfigFlowFacts.
Import Py Builtins Coordinator ConfigFlow.

Lemma try_block_returned (o : http_outcome) (info : device_summary) :
  try_block o = Returned info <->
  exists kvs device,
    o = Response 200 (Ok (JDict kvs)) /\
    assoc "device" kvs = Some (JDict device) /\
    info = summary_of kvs device.
Proof.
  split.
  - unfold try_block.
    destruct o as [| |status [body|e]]; try discriminate.
    + destruct (Z.eqb status 200) eqn:Est; cbn [negb]; [| discriminate].
      apply Z.eqb_eq in Est. subst status.
      destruct body as [|b|n|f|s|l|kvs]; try discriminate.
      * cbn [contains]. destruct (String.index 0 "device" s); discriminate.
      * cbn [contains]. destruct (existsb _ l); discriminate.
      * cbn [contains getitem].
        destruct (assoc "device" kvs) as [device|] eqn:Ed; [| discriminate].
        cbn [bind]. destruct device as [| | | | | |dev]; try discriminate.
        cbn [get bind lift]. intros [= <-]. exists kvs, dev. repeat split.
        exact Ed.
    + destruct (Z.eqb status 200); discriminate.
  - intros (kvs & device & -> & Hd & ->).
    unfold try_block. cbn [Z.eqb Pos.eqb negb contains getitem]. rewrite Hd.
    reflexivity.
Qed.

(** X15: [validate_input] returns exactly when the info request is
    answered with status 200 and a JSON object whose "device" entry is an
    object; the title is the device's name or "PicoW NeoPixel", the
    device id its id or "unknown", the capabilities the body's or an
    empty dict. *)
Theorem validate_input_returns (data : connection) (io : session)
    (info : device_summary) :
  let port := match conn_port data with Some p => p | None => 80 end in
  validate_input data io = inl info <->
  exists kvs device,
    io (GET (info_url (conn_host data) port)) = Response 200 (Ok (JDict kvs)) /\
    assoc "device" kvs = Some (JDict device) /\
    info = summary_of kvs device.
Proof.
  intros port. rewrite <- try_block_returned. unfold validate_input.
  change (match conn_port data with Some p => p | None => Const.DEFAULT_PORT end)
    with port.
  destruct (try_block (io (GET (info_url (conn_host data) port)))) as [i|e|].
  - split; congruence.
  - split; [destruct e |]; discriminate.
  - split; discriminate.
Qed.

Lemma try_block_threw (o : http_outcome) (e : exn) :
  try_block o = Threw e ->
  (o = TimedOut /\ e = TimeoutError) \/
  (o = TransportError /\ e = ClientError) \/
  o = Response 200 (Raise e) \/
  ((exists info, o = Response 200 (Ok info)) /\
   (e = KeyError \/ e = TypeError \/ e = AttributeError)).
Proof.
  unfold try_block. destruct o as [| |status [info|e']].
  - intros [= <-]. auto.
  - intros [= <-]. auto.
  - destruct (Z.eqb status 200) eqn:Est; cbn [negb]; [| discriminate].
    apply Z.eqb_eq in Est. subst status. intros H.
    right. right. right. split; [eauto|].
    destruct (contains "device" info) as [[|]|e'] eqn:Ec.
    + destruct (getitem info "device") as [device|e'] eqn:Eg; cbn [bind] in H.
      * destruct (get device "name" (JStr DEFAULT_NAME)) as [t|e'] eqn:E1;
          cbn [bind] in H;
          [| apply LightEntityFacts.get_raises in E1; injection H as <-; auto].
        destruct (get device "id" (JStr "unknown")) as [i|e'] eqn:E2;
          cbn [bind] in H;
          [| apply LightEntityFacts.get_raises in E2; injection H as <-; auto].
        destruct (get info "capabilities" (JDict [])) as [c|e'] eqn:E3;
          cbn [bind] in H;
          [discriminate
          | apply LightEntityFacts.get_raises in E3; injection H as <-; auto].
      * injection H as <-.
        destruct (PyFacts.getitem_raises _ _ _ Eg); auto.
    + discriminate.
    + injection H as <-. destruct info; try discriminate; injection Ec as <-; auto.
  - destruct (Z.eqb status 200) eqn:Est; cbn [negb]; [| discriminate].
    apply Z.eqb_eq in Est. subst status. intros [= <-]. auto.
Qed.

(** X16: [validate_input] raises [CannotConnect] only for a timeout or
    a transport error, of the request or while a 200 response's body is
    read; a status other than 200 and a body without "device", for which
    the code raises [CannotConnect] inside its [try], come out as
    [UnknownError], like every other failure. *)
Theorem validate_input_classification (data : connection) (io : session) :
  let port := match conn_port data with Some p => p | None => 80 end in
  let o := io (GET (info_url (conn_host data) port)) in
  (validate_input data io = inr CannotConnect <->
   o = TimedOut \/ o = TransportError \/
   o = Response 200 (Raise TimeoutError) \/ o = Response 200 (Raise ClientError)) /\
  (forall status body,
      o = Response status body -> status <> 200 ->
      validate_input data io = inr UnknownError) /\
  (forall info,
      o = Response 200 (Ok info) -> contains "device" info = Ok false ->
      validate_input data io = inr UnknownError).
Proof.
  intros port o. unfold validate_input.
  change (match conn_port data with Some p => p | None => Const.DEFAULT_PORT end)
    with port.
  fold o. split; [| split].
  - split.
    + destruct (try_block o) as [i|e|] eqn:E; try discriminate.
      apply try_block_threw in E.
      destruct E as [[-> ->] | [[-> ->] | [-> | [_ [-> | [-> | ->]]]]]];
        try discriminate; auto.
      destruct e; try discriminate; auto.
    + intros [-> | [-> | [-> | ->]]]; reflexivity.
  - intros status body -> Hne. unfold try_block.
    apply Z.eqb_neq in Hne. rewrite Hne. reflexivity.
  - intros info -> Hc. unfold try_block. cbn [Z.eqb Pos.eqb negb].
    rewrite Hc. reflexivity.
Qed.

Lemma scan_ip_some (io : session) (ip : string) (port : Z)
    (d : list (string * json)) :
  _scan_ip io ip port = Some d <->
  exists kvs device id,
    io (GET (info_url ip port)) = Response 200 (Ok (JDict kvs)) /\
    assoc "device" kvs = Some (JDict device) /\
    assoc "id" device = Some id /\
    truthy id = true /\
    d = found_device ip port id device.
Proof.
  split.
  - unfold _scan_ip.
    destruct (io (GET (info_url ip port))) as [| |status [info|e]];
      try discriminate.
    + destruct (Z.eqb status 200) eqn:Est; [| discriminate].
      apply Z.eqb_eq in Est. subst status. cbn [bind].
      destruct info as [|b|n|f|s|l|kvs]; try discriminate.
      * cbn [contains bind].
        destruct (String.index 0 "device" s); cbn [getitem bind]; discriminate.
      * cbn [contains bind].
        destruct (existsb _ l); cbn [getitem bind]; discriminate.
      * cbn [contains bind getitem].
        destruct (assoc "device" kvs) as [device|] eqn:Ed; [| discriminate].
        cbn [bind]. destruct device as [|b|n|f|s|l|dev]; try discriminate.
        cbn [get bind getitem].
        destruct (assoc "id" dev) as [id|] eqn:Ei; [| discriminate].
        destruct (truthy id) eqn:Et; [| discriminate].
        cbn [bind]. intros [= <-]. exists kvs, dev, id. repeat split; auto.
    + destruct (Z.eqb status 200); discriminate.
  - intros (kvs & device & id & Hio & Hd & Hi & Ht & ->).
    unfold _scan_ip. rewrite Hio. cbn [Z.eqb Pos.eqb bind contains getitem].
    rewrite Hd. cbn [bind get getitem]. rewrite Hi, Ht. reflexivity.
Qed.

(** X17: a probe reports a device exactly when the info request is
    answered with status 200 and a JSON object whose "device" entry is an
    object with a truthy "id"; it then reports the address and port
    probed, that id, and the device's name or "PicoW NeoPixel".  Every
    other answer, timeouts and errors included, counts as nothing
    found. *)
Theorem scan_ip_reports (io : session) (ip : string) (port : Z)
    (d : list (string * json)) :
  _scan_ip io ip port = Some d <->
  exists kvs device id,
    io (GET (info_url ip port)) = Response 200 (Ok (JDict kvs)) /\
    assoc "device" kvs = Some (JDict device) /\
    assoc "id" device = Some id /\
    truthy id = true /\
    d = found_device ip port id device.
Proof. apply scan_ip_some. Qed.

(** X18: an answer that makes the probe report a device also passes
    validation of the same address and port, with the identity and the
    name the probe reported. *)
Theorem scanned_device_validates (io : session) (ip : string) (port : Z)
    (d : list (string * json)) :
  _scan_ip io ip port = Some d ->
  exists info,
    validate_input {| conn_host := ip; conn_port := Some port |} io = inl info /\
    assoc "device_id" d = Some (device_id info) /\
    assoc "name" d = Some (title info) /\
    assoc "ip" d = Some (JStr ip) /\
    assoc "port" d = Some (JInt port).
Proof.
  intros H. apply scan_ip_some in H.
  destruct H as (kvs & device & id & Hio & Hd & Hi & _ & ->).
  exists (summary_of kvs device). split.
  - unfold validate_input. cbn [conn_host conn_port].
    assert (E : try_block (io (GET (info_url ip port)))
                = Returned (summary_of kvs device)).
    { apply try_block_returned. exists kvs, device. auto. }
    rewrite E. reflexivity.
  - unfold found_device, summary_of. cbn. rewrite Hi. repeat split.
Qed.

Lemma scanned_device_validates_witness :
  let body := JDict [("device", JDict [("id", JStr "pico-1"); ("name", JStr "Desk")])] in
  let io := fun _ : request => Response 200 (Ok body) in
  let d := [("ip", JStr "192.168.1.50"); ("port", JInt 80);
            ("device_id", JStr "pico-1"); ("name", JStr "Desk")] in
  _scan_ip io "192.168.1.50" 80 = Some d /\
  exists info,
    validate_input {| conn_host := "192.168.1.50"; conn_port := Some 80 |} io
      = inl info /\
    assoc "device_id" d = Some (device_id info) /\
    assoc "name" d = Some (title info) /\
    assoc "ip" d = Some (JStr "192.168.1.50") /\
    assoc "port" d = Some (JInt 80).
Proof.
  intros body io d. split.
  - reflexivity.
  - apply (scanned_device_validates io "192.168.1.50" 80 d). reflexivity.
Defined.

Lemma create_entry_created (configured : json -> bool) (host : string)
    (port : option Z) (info : device_summary) (t : json)
    (d : list (string * json)) :
  create_entry configured host port info = CreateEntry t d <->
  configured (device_id info) = false /\
  t = title info /\
  d = entry_data host (match port with Some p => p | None => 80 end) info.
Proof.
  unfold create_entry, entry_data.
  destruct (configured (device_id info)).
  - split; [discriminate | intros [H _]; discriminate].
  - split.
    + intros [= <- <-]. auto.
    + intros (_ & -> & ->). reflexivity.
Qed.

(** X19: the manual step creates an entry exactly when the address the
    user typed answers the info request with status 200 and an object
    holding a "device" object, and no entry with that device id exists
    yet; the entry keeps the host and port typed (80 when no port was
    given) and takes name and device id from the answer. *)
Theorem manual_step_creates_entry
    (fl : flow) (ui : connection) (io : session) (configured : json -> bool)
    (t : json) (d : list (string * json)) :
  let port := match conn_port ui with Some p => p | None => 80 end in
  async_step_manual fl (Some ui) io configured = CreateEntry t d <->
  exists kvs device,
    io (GET (info_url (conn_host ui) port)) = Response 200 (Ok (JDict kvs)) /\
    assoc "device" kvs = Some (JDict device) /\
    configured (device_id (summary_of kvs device)) = false /\
    t = title (summary_of kvs device) /\
    d = entry_data (conn_host ui) port (summary_of kvs device).
Proof.
  intros port. unfold async_step_manual.
  pose proof (try_block_returned (io (GET (info_url (conn_host ui) port)))) as Hret.
  unfold validate_input.
  change (match conn_port ui with Some p => p | None => Const.DEFAULT_PORT end)
    with port.
  destruct (try_block (io (GET (info_url (conn_host ui) port)))) as [info|e|].
  - rewrite create_entry_created. fold port. split.
    + intros (Hc & -> & ->).
      destruct (proj1 (Hret info) eq_refl) as (kvs & device & Hio & Hd & ->).
      exists kvs, device. auto.
    + intros (kvs & device & Hio & Hd & Hc & -> & ->).
      assert (E : Returned info = Returned (summary_of kvs device)).
      { apply Hret. exists kvs, device. auto. }
      injection E as ->. auto.
  - split.
    + destruct e; discriminate.
    + intros (kvs & device & Hio & Hd & _).
      assert (E : Threw e = Returned (summary_of kvs device)).
      { apply Hret. exists kvs, device. auto. }
      discriminate.
  - split.
    + discriminate.
    + intros (kvs & device & Hio & Hd & _).
      assert (E : ThrewCannotConnect = Returned (summary_of kvs device)).
      { apply Hret. exists kvs, device. auto. }
      discriminate.
Qed.

(** X20: the discovery step creates an entry only for a device the scan
    recorded under the chosen identity; the entry has the host and port
    the scan recorded, while its name and device id are those of the
    answer validation got, and no entry with that device id existed. *)
Theorem discovery_step_creates_entry
    (fl : flow) (chosen : string) (io : session) (configured : json -> bool)
    (t : json) (d : list (string * json)) :
  async_step_discovery fl (Some chosen) io configured = CreateEntry t d ->
  exists device info,
    assoc chosen (discovered_devices fl) = Some device /\
    validate_input {| conn_host := Discovery.conf_host device;
                      conn_port := Some (Discovery.conf_port device) |} io
      = inl info /\
    configured (device_id info) = false /\
    t = title info /\
    d = entry_data (Discovery.conf_host device) (Discovery.conf_port device) info.
Proof.
  unfold async_step_discovery.
  destruct (assoc chosen (discovered_devices fl)) as [device|] eqn:Ea;
    [| discriminate].
  assert (Hshow : forall errors,
    (let devices_list :=
       map (fun kv =>
              (fst kv,
               Discovery.conf_name (snd kv) ++ " (" ++ Discovery.conf_host (snd kv) ++ ")"))
           (discovered_devices fl) in
     match devices_list with
     | [] => async_step_user fl
     | _ :: _ => ShowForm "discovery" errors devices_list
     end) <> CreateEntry t d).
  { intros errors. destruct (discovered_devices fl) as [|kv rest]; cbn.
    - unfold async_step_user, async_step_scan.
      destruct (negb (_discovery_done fl)); discriminate.
    - discriminate. }
  destruct (validate_input _ io) as [info|[|]] eqn:Ev.
  - intros H. apply create_entry_created in H. destruct H as (Hc & -> & ->).
    exists device, info. auto.
  - intros H. now apply Hshow in H.
  - intros H. now apply Hshow in H.
Qed.

Lemma discovery_step_creates_entry_witness :
  let device := {| Discovery.conf_host := "192.168.1.50"; Discovery.conf_port := 80;
                   Discovery.conf_name := "Desk" |} in
  let fl := {| discovered_devices := [("pico-1", device)]; _discovery_done := true |} in
  let body := JDict [("device", JDict [("id", JStr "pico-9"); ("name", JStr "Shelf")])] in
  let io := fun _ : request => Response 200 (Ok body) in
  let configured := fun _ : json => false in
  let d := [("host", JStr "192.168.1.50"); ("port", JInt 80);
            ("name", JStr "Shelf"); ("device_id", JStr "pico-9")] in
  async_step_discovery fl (Some "pico-1") io configured = CreateEntry (JStr "Shelf") d /\
  exists device info,
    assoc "pico-1" (discovered_devices fl) = Some device /\
    validate_input {| conn_host := Discovery.conf_host device;
                      conn_port := Some (Discovery.conf_port device) |} io
      = inl info /\
    configured (device_id info) = false /\
    JStr "Shelf" = title info /\
    d = entry_data (Discovery.conf_host device) (Discovery.conf_port device) info.
Proof.
  intros device fl body io configured d. split.
  - reflexivity.
  - apply (discovery_step_creates_entry fl "pico-1" io configured (JStr "Shelf") d).
    reflexivity.
Defined.

End ConfigFlowFacts.

(* ================================================================= *)
(** ** Device actions *)

Module DeviceActionFacts.
Import Py Builtins DeviceAction.

Lemma listed_action (entities : list registry_entry) (device_id : string)
    (a : list (string * json)) :
  In a (async_get_actions entities device_id) ->
  exists entry t,
    In entry entities /\ is_light entry = true /\ In t action_types /\
    a = [(CONF_DEVICE_ID, JStr device_id); (CONF_DOMAIN, JStr DOMAIN);
         (ATTR_ENTITY_ID, JStr (entity_id entry)); (CONF_TYPE, JStr t)].
Proof.
  unfold async_get_actions. intros H. apply in_flat_map in H.
  destruct H as (entry & Hentry & Ha). unfold is_light.
  destruct (String.eqb (domain entry) LIGHT_DOMAIN) eqn:E; cbn [negb] in Ha;
    [| destruct Ha].
  apply in_map_iff in Ha. destruct Ha as (t & <- & Ht).
  exists entry, t. repeat split; auto.
Qed.

(** X21: the actions listed for a device are five for each of its
    entities in the light domain and none for any other entity; each
    names the device, this integration's domain, a light entity of the
    device and one of the five action types. *)
Theorem get_actions_five_per_light
    (entities : list registry_entry) (device_id : string) :
  List.length (async_get_actions entities device_id)
    = (5 * List.length (filter is_light entities))%nat /\
  (forall a, In a (async_get_actions entities device_id) ->
     assoc CONF_DEVICE_ID a = Some (JStr device_id) /\
     assoc CONF_DOMAIN a = Some (JStr DOMAIN) /\
     exists entry t,
       In entry entities /\ domain entry = "light" /\ In t action_types /\
       assoc ATTR_ENTITY_ID a = Some (JStr (entity_id entry)) /\
       assoc CONF_TYPE a = Some (JStr t)).
Proof.
  split.
  - unfold async_get_actions.
    induction entities as [|entry rest IH]; [reflexivity|].
    cbn [flat_map filter]. rewrite length_app, IH. unfold is_light.
    destruct (String.eqb (domain entry) LIGHT_DOMAIN); cbn [negb List.length];
      [rewrite length_map; cbn [action_types List.length] |]; lia.
  - intros a Ha. apply listed_action in Ha.
    destruct Ha as (entry & t & Hentry & Hlight & Ht & ->).
    repeat split. exists entry, t. repeat split; auto.
    now apply String.eqb_eq.
Qed.

(** X22: running an action makes at most one service call, always in
    the light domain and on the entity the config names; the service is
    "turn_off" for the turn_off type and "turn_on" for the four others,
    with the config's brightness, rgb_color or effect as the only extra
    datum; a type that is none of the five makes no call and no error. *)
Theorem call_action_service (config : json) (calls : list service_call) :
  async_call_action_from_config config = Ok calls ->
  exists action_type entity_id,
    getitem config CONF_TYPE = Ok action_type /\
    getitem config ATTR_ENTITY_ID = Ok entity_id /\
    (calls = [] <->
     forall t, In t action_types -> action_type <> JStr t) /\
    (forall call, In call calls ->
       calls = [call] /\
       call_domain call = "light" /\
       assoc ATTR_ENTITY_ID (service_data call) = Some entity_id /\
       (call_service call = "turn_off" <-> action_type = JStr ACTION_TURN_OFF) /\
       (call_service call = "turn_on" \/ call_service call = "turn_off") /\
       (forall k v, In (k, v) (service_data call) ->
          k = ATTR_ENTITY_ID \/
          (k = "brightness" /\ action_type = JStr ACTION_SET_BRIGHTNESS /\
           getitem config "brightness" = Ok v) \/
          (k = "rgb_color" /\ action_type = JStr ACTION_SET_COLOR /\
           getitem config "rgb_color" = Ok v) \/
          (k = "effect" /\ action_type = JStr ACTION_SET_EFFECT /\
           getitem config "effect" = Ok v))).
Proof.
  unfold async_call_action_from_config.
  destruct (getitem config CONF_TYPE) as [action_type|e]; [| discriminate].
  destruct (getitem config ATTR_ENTITY_ID) as [entity_id|e]; [| discriminate].
  cbn [bind]. intros H. exists action_type, entity_id.
  split; [reflexivity|]. split; [reflexivity|].
  destruct (eq_str action_type ACTION_TURN_ON) eqn:E1.
  { apply PyFacts.eq_str_true in E1. subst action_type. injection H as <-. split.
    - split; [discriminate|]. intros Hno. exfalso.
      apply (Hno ACTION_TURN_ON); [cbn; tauto | reflexivity].
    - intros call [<- | []]. cbn. repeat split; try discriminate; auto.
      intros k v [[= <- <-] | []]. now left. }
  destruct (eq_str action_type ACTION_TURN_OFF) eqn:E2.
  { apply PyFacts.eq_str_true in E2. subst action_type. injection H as <-. split.
    - split; [discriminate|]. intros Hno. exfalso.
      apply (Hno ACTION_TURN_OFF); [cbn; tauto | reflexivity].
    - intros call [<- | []]. cbn. repeat split; try discriminate; auto.
      intros k v [[= <- <-] | []]. now left. }
  destruct (eq_str action_type ACTION_SET_BRIGHTNESS) eqn:E3.
  { apply PyFacts.eq_str_true in E3. subst action_type.
    destruct (getitem config "brightness") as [b|e]; [| discriminate].
    injection H as <-. split.
    - split; [discriminate|]. intros Hno. exfalso.
      apply (Hno ACTION_SET_BRIGHTNESS); [cbn; tauto | reflexivity].
    - intros call [<- | []]. cbn. repeat split; try discriminate; auto.
      intros k v [[= <- <-] | [[= <- <-] | []]]; [now left | right; left; auto]. }
  destruct (eq_str action_type ACTION_SET_COLOR) eqn:E4.
  { apply PyFacts.eq_str_true in E4. subst action_type.
    destruct (getitem config "rgb_color") as [b|e]; [| discriminate].
    injection H as <-. split.
    - split; [discriminate|]. intros Hno. exfalso.
      apply (Hno ACTION_SET_COLOR); [cbn; tauto | reflexivity].
    - intros call [<- | []]. cbn. repeat split; try discriminate; auto.
      intros k v [[= <- <-] | [[= <- <-] | []]];
        [now left | right; right; left; auto]. }
  destruct (eq_str action_type ACTION_SET_EFFECT) eqn:E5.
  { apply PyFacts.eq_str_true in E5. subst action_type.
    destruct (getitem config "effect") as [b|e]; [| discriminate].
    injection H as <-. split.
    - split; [discriminate|]. intros Hno. exfalso.
      apply (Hno ACTION_SET_EFFECT); [cbn; tauto | reflexivity].
    - intros call [<- | []]. cbn. repeat split; try discriminate; auto.
      intros k v [[= <- <-] | [[= <- <-] | []]];
        [now left | right; right; right; auto]. }
  injection H as <-. split.
  - split; [| reflexivity]. intros _ t Ht ->.
    cbn in Ht. destruct Ht as [<- | [<- | [<- | [<- | [<- | []]]]]];
      cbn in *; discriminate.
  - intros call [].
Qed.

Lemma call_action_service_witness :
  let config := JDict [("device_id", JStr "dev-1"); ("domain", JStr "picow_neopixel");
                       ("entity_id", JStr "light.desk"); ("type", JStr "set_brightness");
                       ("brightness", JInt 128)] in
  let calls := [{| call_domain := "light"; call_service := "turn_on";
                   service_data := [("entity_id", JStr "light.desk");
                                    ("brightness", JInt 128)] |}] in
  async_call_action_from_config config = Ok calls /\
  exists action_type entity_id,
    getitem config CONF_TYPE = Ok action_type /\
    getitem config ATTR_ENTITY_ID = Ok entity_id /\
    (calls = [] <->
     forall t, In t action_types -> action_type <> JStr t) /\
    (forall call, In call calls ->
       calls = [call] /\
       call_domain call = "light" /\
       assoc ATTR_ENTITY_ID (service_data call) = Some entity_id /\
       (call_service call = "turn_off" <-> action_type = JStr ACTION_TURN_OFF) /\
       (call_service call = "turn_on" \/ call_service call = "turn_off") /\
       (forall k v, In (k, v) (service_data call) ->
          k = ATTR_ENTITY_ID \/
          (k = "brightness" /\ action_type = JStr ACTION_SET_BRIGHTNESS /\
           getitem config "brightness" = Ok v) \/
          (k = "rgb_color" /\ action_type = JStr ACTION_SET_COLOR /\
           getitem config "rgb_color" = Ok v) \/
          (k = "effect" /\ action_type = JStr ACTION_SET_EFFECT /\
           getitem config "effect" = Ok v))).
Proof.
  intros config calls. split.
  - reflexivity.
  - apply (call_action_service config calls). reflexivity.
Defined.

(** X23: every action listed for a device can be run once the fields
    the action types ask for are filled in: it makes exactly one call, in
    the light domain, on the entity the listing named. *)
Theorem listed_action_runs
    (entities : list registry_entry) (device_id : string)
    (a : list (string * json)) (brightness rgb_color effect : json) :
  In a (async_get_actions entities device_id) ->
  exists call,
    async_call_action_from_config
      (JDict (setitem "effect" effect
                (setitem "rgb_color" rgb_color
                   (setitem "brightness" brightness a))))
      = Ok [call] /\
    call_domain call = "light" /\
    assoc ATTR_ENTITY_ID (service_data call) = assoc ATTR_ENTITY_ID a.
Proof.
  intros Ha. apply listed_action in Ha.
  destruct Ha as (entry & t & _ & _ & Ht & ->).
  cbn in Ht. destruct Ht as [<- | [<- | [<- | [<- | [<- | []]]]]];
    (eexists; split; [reflexivity | split; reflexivity]).
Qed.

Lemma listed_action_runs_witness :
  let entities := [{| domain := "sensor"; entity_id := "sensor.desk_rssi" |};
                   {| domain := "light"; entity_id := "light.desk" |}] in
  let a := [("device_id", JStr "dev-1"); ("domain", JStr "picow_neopixel");
            ("entity_id", JStr "light.desk"); ("type", JStr "set_color")] in
  let rgb := JList [JInt 255; JInt 0; JInt 0] in
  In a (async_get_actions entities "dev-1") /\
  exists call,
    async_call_action_from_config
      (JDict (setitem "effect" (JStr "rainbow")
                (setitem "rgb_color" rgb (setitem "brightness" (JInt 10) a))))
      = Ok [call] /\
    call_domain call = "light" /\
    assoc ATTR_ENTITY_ID (service_data call) = assoc ATTR_ENTITY_ID a.
Proof.
  intros entities a rgb. split.
  - cbn. auto.
  - apply (listed_action_runs entities "dev-1" a (JInt 10) rgb (JStr "rainbow")).
    cbn. auto.
Defined.

End DeviceActionFacts.

(* ================================================================= *)
(** ** The scan: what is probed and what is recorded *)

Module ScanFacts.
Import Discovery ScanNotions.
Local Open Scope Q_scope.

(** *** Recording results *)

Lemma record_results_NoDup (results : list (option scan_result)) :
  forall devices,
    NoDup (map fst devices) -> NoDup (map fst (record_results results devices)).
Proof.
  induction results as [|[r|] rest IH]; intros devices Hnd; cbn; auto.
  apply IH. now apply DictFacts.setitem_NoDup.
Qed.

Lemma record_results_In (results : list (option scan_result)) :
  forall devices id e,
    In (id, e) (record_results results devices) ->
    In (id, e) devices \/
    exists r, In (Some r) results /\ device_id r = id /\ e = entry_of r.
Proof.
  induction results as [|[r|] rest IH]; intros devices id e Hin; cbn in Hin.
  - now left.
  - apply IH in Hin. destruct Hin as [Hin | (r' & Hr' & Hid & He)].
    + apply DictFacts.In_setitem in Hin. destruct Hin as [[-> ->] | Hin].
      * right. exists r. repeat split. now left.
      * now left.
    + right. exists r'. repeat split; auto. now right.
  - apply IH in Hin. destruct Hin as [Hin | (r' & Hr' & Hid & He)].
    + now left.
    + right. exists r'. repeat split; auto. now right.
Qed.

Lemma last_reporting_from (id : string) (results : list (option scan_result)) :
  forall r0,
    exists r,
      fold_left
        (fun acc result =>
           match result with
           | Some r => if String.eqb id (device_id r) then Some r else acc
           | None => acc
           end)
        results (Some r0) = Some r.
Proof.
  induction results as [|[r|] rest IH]; intros r0; cbn.
  - eauto.
  - destruct (String.eqb id (device_id r)); apply IH.
  - apply IH.
Qed.

Lemma record_results_last (id : string) (results : list (option scan_result)) :
  forall devices acc,
    (forall r, acc = Some r -> Py.assoc id devices = Some (entry_of r)) ->
    Py.assoc id (record_results results devices) =
    match
      fold_left
        (fun acc result =>
           match result with
           | Some r => if String.eqb id (device_id r) then Some r else acc
           | None => acc
           end)
        results acc
    with
    | Some r => Some (entry_of r)
    | None => Py.assoc id devices
    end.
Proof.
  induction results as [|[r|] rest IH]; intros devices acc Hacc; cbn.
  - destruct acc as [r|]; auto.
  - destruct (String.eqb id (device_id r)) eqn:E.
    + apply String.eqb_eq in E. subst id.
      destruct (last_reporting_from (device_id r) rest r) as (r' & Hr').
      rewrite (IH _ (Some r)).
      * cbn in Hr'. rewrite Hr'. reflexivity.
      * intros r1 [= <-]. apply DictFacts.assoc_setitem_same.
    + apply String.eqb_neq in E.
      rewrite (IH _ acc).
      * rewrite DictFacts.assoc_setitem_other by exact E. reflexivity.
      * intros r1 Hr1. rewrite DictFacts.assoc_setitem_other by exact E. auto.
  - now apply IH.
Qed.

(** X25: after the results of a batch are recorded, the entry under an
    identity is that of the last result of the batch reporting it (its
    address, port and name), and the entry recorded before when no result
    of the batch reports it. *)
Theorem record_results_last_wins
    (id : string) (results : list (option scan_result))
    (devices : list (string * device_entry)) :
  Py.assoc id (record_results results devices) =
  match last_reporting id results with
  | Some r => Some (entry_of r)
  | None => Py.assoc id devices
  end.
Proof.
  unfold last_reporting. apply record_results_last. discriminate.
Qed.

(** *** A rule for the two loops *)

Section Rule.

Variable clock : nat -> Q.
Variable _scan_ip : nat -> string -> Z -> option scan_result.
Variable local_ips : list string.

Variable I : scan_state -> Prop.
Variable A : string -> Prop.

Hypothesis I_read : forall s, I s -> I (snd (read_elapsed clock s)).
Hypothesis I_append :
  forall s ip_str,
    I s -> A ip_str -> existsb (String.eqb ip_str) local_ips = false ->
    I (append_task s ip_str).
Hypothesis I_await : forall s, I s -> I (await_batch _scan_ip s).

Lemma scan_hosts_rule (hosts : list string) :
  forall s,
    (forall ip_str, In ip_str hosts -> A ip_str) ->
    I s -> I (scan_hosts clock _scan_ip local_ips hosts s).
Proof.
  induction hosts as [|ip_str rest IH]; intros s HA Hs; cbn [scan_hosts]; [exact Hs|].
  assert (HA' : forall ip, In ip rest -> A ip) by (intros; apply HA; now right).
  set (s1 := if existsb (String.eqb ip_str) local_ips then s
             else append_task s ip_str).
  assert (H1 : I s1).
  { unfold s1. destruct (existsb (String.eqb ip_str) local_ips) eqn:E; [exact Hs|].
    apply I_append; auto. apply HA. now left. }
  destruct (MAX_PARALLEL_SCANS <=? List.length (scan_tasks s1))%nat; [| now apply IH].
  pose proof (I_read s1 H1) as H2. cbn [read_elapsed snd] in *.
  destruct (Qlt_bool DISCOVERY_TIMEOUT (elapsed_at clock (reads s1))); [exact H2|].
  apply IH; auto.
Qed.

Lemma scan_networks_rule (networks : list (list string)) :
  forall s,
    (forall hosts ip_str, In hosts networks -> In ip_str hosts -> A ip_str) ->
    I s -> I (scan_networks clock _scan_ip local_ips networks s).
Proof.
  induction networks as [|hosts rest IH]; intros s HA Hs; cbn [scan_networks];
    [exact Hs|].
  pose proof (I_read s Hs) as H1. cbn [read_elapsed snd] in *.
  destruct (Qlt_bool DISCOVERY_TIMEOUT (elapsed_at clock (reads s))); [exact H1|].
  apply IH.
  - intros hosts' ip Hin. apply HA. now right.
  - apply scan_hosts_rule; auto. intros ip Hin. apply (HA hosts); auto. now left.
Qed.

End Rule.

Lemma probed_snoc (tr : list event) (ev : event) :
  List.concat (map batch (tr ++ [ev])) = (List.concat (map batch tr) ++ batch ev)%list.
Proof.
  rewrite map_app, concat_app. cbn. now rewrite app_nil_r.
Qed.

Lemma gather_In (_scan_ip : nat -> string -> Z -> option scan_result)
    (n : nat) (ips : list string) (r : scan_result) :
  In (Some r) (gather _scan_ip n ips) ->
  exists ip_str, In ip_str ips /\ _scan_ip n ip_str Const.DEFAULT_PORT = Some r.
Proof.
  unfold gather. intros H. apply in_map_iff in H.
  destruct H as (ip & Hr & Hin). eauto.
Qed.

(** What the remaining tasks add: nothing, or one batch awaited under
    [wait_for], started within the deadline with the time left as its
    timeout, whose results are recorded unless it times out. *)
Lemma process_remaining_cases
    (clock : nat -> Q) (_scan_ip : nat -> string -> Z -> option scan_result)
    (completes_within : Q -> list string -> bool) (s : scan_state) :
  let s' := process_remaining clock _scan_ip completes_within s in
  scan_tasks s' = scan_tasks s /\
  ((trace s' = trace s /\ discovered_devices s' = discovered_devices s /\
    (scan_tasks s = [] \/ DISCOVERY_TIMEOUT <= elapsed_at clock (reads s))) \/
   (exists ev,
       trace s' = (trace s ++ [ev])%list /\
       reading ev = reads s /\
       batch ev = scan_tasks s /\
       scan_tasks s <> [] /\
       timeout ev = Some (DISCOVERY_TIMEOUT - elapsed_at clock (reads s)) /\
       elapsed_at clock (reads s) < DISCOVERY_TIMEOUT /\
       (discovered_devices s' =
          record_results (gather _scan_ip (reading ev) (batch ev))
            (discovered_devices s) \/
        discovered_devices s' = discovered_devices s))).
Proof.
  intros s'.
  assert (Hs' : s' = process_remaining clock _scan_ip completes_within s)
    by reflexivity.
  clearbody s'. unfold process_remaining in Hs'.
  destruct (scan_tasks s) as [|task tasks] eqn:Et.
  - subst s'. split; [exact Et|]. left. auto.
  - cbn -[record_results gather Qminus] in Hs'. rewrite Et in Hs'.
    destruct (Qlt_bool 0 (DISCOVERY_TIMEOUT - elapsed_at clock (reads s))) eqn:E;
      subst s'; cbn -[record_results gather Qminus].
    + apply DiscoveryFacts.Qlt_bool_true in E.
      split; [reflexivity|]. right. eexists. split; [reflexivity|].
      cbn -[record_results gather Qminus].
      split; [reflexivity|]. split; [reflexivity|]. split; [discriminate|].
      split; [reflexivity|]. split; [unfold DISCOVERY_TIMEOUT in *; lra|].
      destruct (completes_within _ _); [now left | now right].
    + apply DiscoveryFacts.Qlt_bool_false in E.
      split; [reflexivity|]. left. split; [reflexivity|]. split; [reflexivity|].
      right. unfold DISCOVERY_TIMEOUT in *. lra.
Qed.

Section Recorded.

Variable clock : nat -> Q.
Variable _scan_ip : nat -> string -> Z -> option scan_result.
Variable completes_within : Q -> list string -> bool.
Variable local_ips : list string.

Lemma recorded_extend (s : scan_state) (ev : event) (s' : scan_state) :
  recorded_from_probes _scan_ip s ->
  trace s' = (trace s ++ [ev])%list ->
  discovered_devices s' =
    record_results (gather _scan_ip (reading ev) (batch ev)) (discovered_devices s) ->
  recorded_from_probes _scan_ip s'.
Proof.
  intros [Hnd Hprov] Ht Hd. split.
  - rewrite Hd. now apply record_results_NoDup.
  - intros id e Hin. rewrite Hd in Hin. apply record_results_In in Hin.
    rewrite Ht. destruct Hin as [Hin | (r & Hr & Hid & He)].
    + destruct (Hprov id e Hin) as (ev' & ip & r & Hev & Hip & Hs & Hid & He).
      exists ev', ip, r. repeat split; auto. apply in_or_app. now left.
    + apply gather_In in Hr. destruct Hr as (ip & Hip & Hs).
      exists ev, ip, r. repeat split; auto. apply in_or_app. right. now left.
Qed.

Lemma recorded_same (s s' : scan_state) :
  recorded_from_probes _scan_ip s ->
  trace s' = trace s -> discovered_devices s' = discovered_devices s ->
  recorded_from_probes _scan_ip s'.
Proof.
  unfold recorded_from_probes. intros H -> ->. exact H.
Qed.

Lemma recorded_keep (s : scan_state) (ev : event) (s' : scan_state) :
  recorded_from_probes _scan_ip s ->
  trace s' = (trace s ++ [ev])%list ->
  discovered_devices s' = discovered_devices s ->
  recorded_from_probes _scan_ip s'.
Proof.
  intros [Hnd Hprov] Ht Hd. split; rewrite Hd; [exact Hnd|].
  intros id e Hin. destruct (Hprov id e Hin) as (ev' & ip & r & Hev & H).
  exists ev', ip, r. split; [| exact H]. rewrite Ht. apply in_or_app. now left.
Qed.

Lemma recorded_scan (networks_to_scan : list (list string)) :
  recorded_from_probes _scan_ip
    (_discover_devices_http clock _scan_ip completes_within local_ips
       networks_to_scan).
Proof.
  assert (H0 : recorded_from_probes _scan_ip scan_start).
  { split; [constructor | intros id e []]. }
  unfold _discover_devices_http.
  destruct networks_to_scan as [|hosts rest]; [exact H0|].
  set (s1 := scan_networks clock _scan_ip local_ips (hosts :: rest) scan_start).
  assert (H1 : recorded_from_probes _scan_ip s1).
  { apply (scan_networks_rule clock _scan_ip local_ips
             (recorded_from_probes _scan_ip) (fun _ => True)).
    - intros s Hs. now apply (recorded_same s).
    - intros s ip Hs _ _. now apply (recorded_same s).
    - intros s Hs.
      apply (recorded_extend s
               {| reading := pred (reads s); timeout := None; batch := scan_tasks s |});
        auto.
    - auto.
    - exact H0. }
  clearbody s1.
  apply (recorded_same (process_remaining clock _scan_ip completes_within s1));
    [| reflexivity | reflexivity].
  destruct (process_remaining_cases clock _scan_ip completes_within s1)
    as [_ [(Ht & Hd & _) | (ev & Ht & _ & _ & _ & _ & _ & [Hd | Hd])]].
  - now apply (recorded_same s1).
  - now apply (recorded_extend s1 ev).
  - now apply (recorded_keep s1 ev).
Qed.

End Recorded.

(** X24: whatever the clock, the answers and the networks, the devices
    a scan ends with have pairwise distinct identities, and each entry is
    the address, port and name that a probe of an awaited batch reported
    under that identity. *)
Theorem discovered_devices_from_probes
    (clock : nat -> Q) (_scan_ip : nat -> string -> Z -> option scan_result)
    (completes_within : Q -> list string -> bool)
    (local_ips : list string) (networks_to_scan : list (list string)) :
  let s := _discover_devices_http clock _scan_ip completes_within local_ips
             networks_to_scan in
  NoDup (map fst (discovered_devices s)) /\
  forall id e,
    In (id, e) (discovered_devices s) ->
    exists ev ip_str r,
      In ev (trace s) /\ In ip_str (batch ev) /\
      _scan_ip (reading ev) ip_str Const.DEFAULT_PORT = Some r /\
      device_id r = id /\ e = entry_of r.
Proof.
  intros s. apply recorded_scan.
Qed.

(** *** Which addresses are probed *)

Lemma not_local (local_ips : list string) (ip_str : string) :
  existsb (String.eqb ip_str) local_ips = false <-> ~ In ip_str local_ips.
Proof.
  split.
  - intros H Hin.
    assert (E : existsb (String.eqb ip_str) local_ips = true).
    { apply existsb_exists. exists ip_str. split; [exact Hin | apply String.eqb_refl]. }
    congruence.
  - intros H. destruct (existsb (String.eqb ip_str) local_ips) eqn:E; [| reflexivity].
    apply existsb_exists in E. destruct E as (x & Hx & Heq).
    apply String.eqb_eq in Heq. subst x. contradiction.
Qed.

Lemma candidates_In (local_ips : list string) (networks : list (list string))
    (ip_str : string) :
  In ip_str (candidates local_ips networks) <->
  (exists hosts, In hosts networks /\ In ip_str hosts) /\ ~ In ip_str local_ips.
Proof.
  unfold candidates. rewrite filter_In, in_concat, negb_true_iff, not_local.
  split; intros [(hosts & H1 & H2) H3]; (split; [exists hosts; auto | auto]).
Qed.

Lemma probed_In (s : scan_state) (ip_str : string) :
  In ip_str (probed s) <-> exists ev, In ev (trace s) /\ In ip_str (batch ev).
Proof.
  unfold probed. rewrite in_concat. split.
  - intros (l & Hl & Hip). apply in_map_iff in Hl. destruct Hl as (ev & <- & Hev).
    eauto.
  - intros (ev & Hev & Hip). exists (batch ev). split; [| exact Hip].
    apply in_map. exact Hev.
Qed.

Section Probed.

Variable clock : nat -> Q.
Variable _scan_ip : nat -> string -> Z -> option scan_result.
Variable completes_within : Q -> list string -> bool.
Variable local_ips : list string.

Lemma pending_await (s : scan_state) :
  pending (await_batch _scan_ip s) = pending s.
Proof.
  unfold pending, probed. cbn [await_batch trace scan_tasks].
  rewrite probed_snoc. cbn [batch]. now rewrite app_nil_r.
Qed.

Lemma pending_append (s : scan_state) (ip_str : string) :
  pending (append_task s ip_str) = (pending s ++ [ip_str])%list.
Proof.
  unfold pending, probed. cbn [append_task trace scan_tasks].
  now rewrite app_assoc.
Qed.

Lemma pending_within (networks : list (list string)) :
  forall ip_str,
    In ip_str
      (pending (scan_networks clock _scan_ip local_ips networks scan_start)) ->
    In ip_str (candidates local_ips networks).
Proof.
  apply (scan_networks_rule clock _scan_ip local_ips
           (fun s => forall ip, In ip (pending s) -> In ip (candidates local_ips networks))
           (fun ip => exists hosts, In hosts networks /\ In ip hosts)).
  - intros s Hs. exact Hs.
  - intros s ip Hs HA Hloc ip' Hin. rewrite pending_append in Hin.
    apply in_app_or in Hin. destruct Hin as [Hin | [<- | []]]; [now apply Hs|].
    apply candidates_In. split; [exact HA | now apply not_local].
  - intros s Hs ip Hin. rewrite pending_await in Hin. now apply Hs.
  - intros hosts ip H1 H2. eauto.
  - intros ip [].
Qed.

Lemma probed_sub_pending (s : scan_state) (ip_str : string) :
  In ip_str (probed (process_remaining clock _scan_ip completes_within s)) ->
  In ip_str (pending s).
Proof.
  destruct (process_remaining_cases clock _scan_ip completes_within s)
    as [_ [(Ht & _) | (ev & Ht & _ & Hb & _)]];
    unfold pending, probed; rewrite Ht.
  - intros H. apply in_or_app. now left.
  - rewrite probed_snoc, Hb. auto.
Qed.

End Probed.

Lemma scan_probes_candidates
    (clock : nat -> Q) (_scan_ip : nat -> string -> Z -> option scan_result)
    (completes_within : Q -> list string -> bool)
    (local_ips : list string) (networks_to_scan : list (list string))
    (ev : event) (ip_str : string) :
  In ev (trace (_discover_devices_http clock _scan_ip completes_within local_ips
                  networks_to_scan)) ->
  In ip_str (batch ev) ->
  (exists hosts, In hosts networks_to_scan /\ In ip_str hosts) /\
  ~ In ip_str local_ips.
Proof.
  intros Hev Hip. apply candidates_In.
  assert (Hp : In ip_str
                 (probed (_discover_devices_http clock _scan_ip completes_within
                            local_ips networks_to_scan)))
    by (apply probed_In; eauto).
  unfold _discover_devices_http in Hp.
  destruct networks_to_scan as [|hosts rest]; [destruct Hp|].
  cbn [read_elapsed snd] in Hp.
  apply (pending_within clock _scan_ip local_ips).
  apply (probed_sub_pending clock _scan_ip completes_within). exact Hp.
Qed.

(** X26: whatever the clock and the answers, every address a scan
    probes belongs to one of the networks to scan and is not one of the
    scanner's own addresses. *)
Theorem probes_within_networks
    (clock : nat -> Q) (_scan_ip : nat -> string -> Z -> option scan_result)
    (completes_within : Q -> list string -> bool)
    (local_ips : list string) (networks_to_scan : list (list string)) :
  let s := _discover_devices_http clock _scan_ip completes_within local_ips
             networks_to_scan in
  forall ev ip_str,
    In ev (trace s) -> In ip_str (batch ev) ->
    (exists hosts, In hosts networks_to_scan /\ In ip_str hosts) /\
    ~ In ip_str local_ips.
Proof.
  intros s ev ip Hev Hip.
  now apply (scan_probes_candidates clock _scan_ip completes_within local_ips
               networks_to_scan ev).
Qed.

Lemma probes_within_networks_witness :
  let s := _discover_devices_http (ticking 10) (fun _ _ _ => None)
             (fun _ _ => true) ["10.0.0.7"] [sample_hosts] in
  let ev := hd {| reading := 0; timeout := None; batch := [] |} (trace s) in
  (In ev (trace s) /\ In "10.0.0.1" (batch ev)) /\
  (exists hosts, In hosts [sample_hosts] /\ In "10.0.0.1" hosts) /\
  ~ In "10.0.0.1" ["10.0.0.7"].
Proof.
  intros s ev.
  assert (Hev : In ev (trace s)) by (vm_compute; left; reflexivity).
  assert (Hip : In "10.0.0.1" (batch ev)) by (vm_compute; left; reflexivity).
  split; [split; assumption|].
  exact (probes_within_networks (ticking 10) (fun _ _ _ => None)
           (fun _ _ => true) ["10.0.0.7"] [sample_hosts] ev "10.0.0.1" Hev Hip).
Defined.

(** *** With time to spare *)

Section InTime.

Variable clock : nat -> Q.
Variable _scan_ip : nat -> string -> Z -> option scan_result.
Variable completes_within : Q -> list string -> bool.
Variable local_ips : list string.

Hypothesis in_time : forall n, elapsed_at clock n < DISCOVERY_TIMEOUT.

Lemma no_break (n : nat) : Qlt_bool DISCOVERY_TIMEOUT (elapsed_at clock n) = false.
Proof.
  unfold Qlt_bool. apply negb_false_iff. apply Qle_bool_iff.
  apply Qlt_le_weak. apply in_time.
Qed.

Lemma scan_hosts_pending (hosts : list string) :
  forall s,
    pending (scan_hosts clock _scan_ip local_ips hosts s) =
    (pending s ++
     filter (fun ip_str => negb (existsb (String.eqb ip_str) local_ips)) hosts)%list.
Proof.
  induction hosts as [|ip_str rest IH]; intros s; cbn [scan_hosts filter].
  - now rewrite app_nil_r.
  - set (s1 := if existsb (String.eqb ip_str) local_ips then s
               else append_task s ip_str).
    assert (H1 : pending s1 =
                 (pending s ++
                  (if negb (existsb (String.eqb ip_str) local_ips)
                   then [ip_str] else []))%list).
    { unfold s1. destruct (existsb (String.eqb ip_str) local_ips); cbn [negb].
      - now rewrite app_nil_r.
      - apply pending_append. }
    assert (Hgoal :
      (pending s1 ++
       filter (fun ip => negb (existsb (String.eqb ip) local_ips)) rest)%list =
      (pending s ++
       (if negb (existsb (String.eqb ip_str) local_ips)
        then ip_str :: filter (fun ip => negb (existsb (String.eqb ip) local_ips)) rest
        else filter (fun ip => negb (existsb (String.eqb ip) local_ips)) rest))%list).
    { rewrite H1, <- app_assoc.
      destruct (negb (existsb (String.eqb ip_str) local_ips)); reflexivity. }
    destruct (MAX_PARALLEL_SCANS <=? List.length (scan_tasks s1))%nat.
    + cbn [read_elapsed]. rewrite no_break. rewrite IH, pending_await.
      exact Hgoal.
    + rewrite IH. exact Hgoal.
Qed.

Lemma scan_networks_pending (networks : list (list string)) :
  forall s,
    pending (scan_networks clock _scan_ip local_ips networks s) =
    (pending s ++ candidates local_ips networks)%list.
Proof.
  induction networks as [|hosts rest IH]; intros s; cbn [scan_networks].
  - unfold candidates. cbn. now rewrite app_nil_r.
  - cbn [read_elapsed]. rewrite no_break, IH, scan_hosts_pending.
    unfold candidates. cbn [List.concat]. rewrite filter_app, <- app_assoc.
    reflexivity.
Qed.

Lemma scan_probes_all (networks_to_scan : list (list string)) :
  probed (_discover_devices_http clock _scan_ip completes_within local_ips
            networks_to_scan)
  = candidates local_ips networks_to_scan.
Proof.
  unfold _discover_devices_http.
  destruct networks_to_scan as [|hosts rest]; [reflexivity|].
  set (s1 := scan_networks clock _scan_ip local_ips (hosts :: rest) scan_start).
  assert (H1 : pending s1 = candidates local_ips (hosts :: rest)).
  { unfold s1. now rewrite scan_networks_pending. }
  clearbody s1. rewrite <- H1. unfold probed at 1. cbn [read_elapsed snd trace].
  destruct (process_remaining_cases clock _scan_ip completes_within s1)
    as [_ [(Ht & _ & [He | Hlate]) | (ev & Ht & _ & Hb & _)]].
  - rewrite Ht. unfold pending. rewrite He. now rewrite app_nil_r.
  - exfalso. pose proof (in_time (reads s1)). lra.
  - rewrite Ht, probed_snoc, Hb. reflexivity.
Qed.

End InTime.

(** X28: when no clock reading of a scan reaches the deadline, the
    scan probes every address of every network to scan except the
    scanner's own, each once for each time it is listed and in the order
    of the networks. *)
Theorem scan_in_time_probes_all
    (clock : nat -> Q) (_scan_ip : nat -> string -> Z -> option scan_result)
    (completes_within : Q -> list string -> bool)
    (local_ips : list string) (networks_to_scan : list (list string)) :
  (forall n, elapsed_at clock n < DISCOVERY_TIMEOUT) ->
  probed (_discover_devices_http clock _scan_ip completes_within local_ips
            networks_to_scan)
  = candidates local_ips networks_to_scan.
Proof.
  intros H. now apply scan_probes_all.
Qed.

Lemma scan_in_time_probes_all_witness :
  let clock := ticking 1 in
  let networks := [sample_hosts; ["10.0.1.1"; "10.0.1.2"]] in
  (forall n,
      elapsed_at (fun n => if (n <=? 8)%nat then clock n else 8) n
      < DISCOVERY_TIMEOUT) /\
  probed (_discover_devices_http
            (fun n => if (n <=? 8)%nat then clock n else 8)
            (fun _ _ _ => None) (fun _ _ => true) ["10.0.0.7"] networks)
  = candidates ["10.0.0.7"] networks.
Proof.
  intros clock networks. split.
  - intros n. unfold elapsed_at, DISCOVERY_TIMEOUT.
    destruct (n <=? 8)%nat eqn:E; [| reflexivity].
    apply Nat.leb_le in E. unfold clock, ticking.
    do 9 (destruct n as [|n]; [reflexivity|]). lia.
  - apply (scan_in_time_probes_all
             (fun n => if (n <=? 8)%nat then clock n else 8)
             (fun _ _ _ => None) (fun _ _ => true) ["10.0.0.7"] networks).
    intros n. unfold elapsed_at, DISCOVERY_TIMEOUT.
    destruct (n <=? 8)%nat eqn:E; [| reflexivity].
    apply Nat.leb_le in E. unfold clock, ticking.
    do 9 (destruct n as [|n]; [reflexivity|]). lia.
Defined.

(** *** Bounded parallelism *)

Section Capped.

Variable clock : nat -> Q.
Variable _scan_ip : nat -> string -> Z -> option scan_result.
Variable completes_within : Q -> list string -> bool.
Variable local_ips : list string.

Hypothesis clock_monotone : monotone clock.

Lemma late_not_within (s : scan_state) :
  late clock s -> elapsed_at clock (reads s) <= DISCOVERY_TIMEOUT -> False.
Proof.
  intros (m & Hm & Hlate) Hle.
  assert (Hc : clock m <= clock (reads s)) by (apply clock_monotone; lia).
  unfold elapsed_at in *. lra.
Qed.

Lemma capped_read (s : scan_state) :
  capped clock s -> capped clock (snd (read_elapsed clock s)).
Proof.
  intros [Hlen Htr]. split; [| exact Htr].
  destruct Hlen as [Hlen | (m & Hm & Hlate)]; [now left|].
  right. exists m. split; [cbn; lia | exact Hlate].
Qed.

Lemma scan_hosts_capped (hosts : list string) :
  forall s, capped clock s -> capped clock (scan_hosts clock _scan_ip local_ips hosts s).
Proof.
  induction hosts as [|ip_str rest IH]; intros s Hs; cbn [scan_hosts]; [exact Hs|].
  set (s1 := if existsb (String.eqb ip_str) local_ips then s
             else append_task s ip_str).
  assert (Htr : trace s1 = trace s).
  { unfold s1. destruct (existsb (String.eqb ip_str) local_ips); reflexivity. }
  assert (Hreads : reads s1 = reads s).
  { unfold s1. destruct (existsb (String.eqb ip_str) local_ips); reflexivity. }
  assert (Hlen : (List.length (scan_tasks s1) <= S (List.length (scan_tasks s)))%nat).
  { unfold s1. destruct (existsb (String.eqb ip_str) local_ips);
      cbn [append_task scan_tasks]; [lia|].
    rewrite length_app. cbn. lia. }
  destruct Hs as [Hcap Hfull].
  destruct (MAX_PARALLEL_SCANS <=? List.length (scan_tasks s1))%nat eqn:E.
  - apply Nat.leb_le in E. cbn [read_elapsed].
    destruct (Qlt_bool DISCOVERY_TIMEOUT (elapsed_at clock (reads s1))) eqn:Eq.
    + apply DiscoveryFacts.Qlt_bool_true in Eq. split.
      * right. exists (reads s1). split; [cbn; lia | exact Eq].
      * cbn [trace]. rewrite Htr. exact Hfull.
    + apply DiscoveryFacts.Qlt_bool_false in Eq. apply IH. split.
      * left. cbn. unfold MAX_PARALLEL_SCANS. lia.
      * intros ev Hin. cbn [await_batch trace] in Hin.
        apply in_app_or in Hin. destruct Hin as [Hin | [<- | []]].
        -- apply Hfull. now rewrite <- Htr.
        -- cbn [timeout batch scan_tasks]. split; [reflexivity|].
           destruct Hcap as [Hcap | Hlate]; [lia|].
           exfalso. apply (late_not_within s Hlate). now rewrite <- Hreads.
  - apply Nat.leb_gt in E. apply IH. split.
    + now left.
    + rewrite Htr. exact Hfull.
Qed.

Lemma scan_networks_capped (networks : list (list string)) :
  forall s,
    capped clock s -> capped clock (scan_networks clock _scan_ip local_ips networks s).
Proof.
  induction networks as [|hosts rest IH]; intros s Hs; cbn [scan_networks];
    [exact Hs|].
  pose proof (capped_read s Hs) as H1. cbn [read_elapsed snd] in *.
  destruct (Qlt_bool DISCOVERY_TIMEOUT (elapsed_at clock (reads s))); [exact H1|].
  apply IH. now apply scan_hosts_capped.
Qed.

Lemma scan_batches_capped (networks_to_scan : list (list string)) :
  forall ev,
    In ev (trace (_discover_devices_http clock _scan_ip completes_within local_ips
                    networks_to_scan)) ->
    (timeout ev = None /\ List.length (batch ev) = MAX_PARALLEL_SCANS) \/
    (timeout ev <> None /\
     (1 <= List.length (batch ev) < MAX_PARALLEL_SCANS)%nat).
Proof.
  unfold _discover_devices_http.
  destruct networks_to_scan as [|hosts rest]; [intros ev []|].
  set (s1 := scan_networks clock _scan_ip local_ips (hosts :: rest) scan_start).
  assert (H1 : capped clock s1).
  { apply scan_networks_capped. split.
    - left. cbn. unfold MAX_PARALLEL_SCANS. lia.
    - intros ev []. }
  clearbody s1. cbn [read_elapsed snd trace].
  destruct H1 as [Hcap Hfull].
  destruct (process_remaining_cases clock _scan_ip completes_within s1)
    as [_ [(Ht & _) | (ev' & Ht & _ & Hb & Hne & Hto & Hlt & _)]];
    rewrite Ht; intros ev Hin.
  - left. now apply Hfull.
  - apply in_app_or in Hin. destruct Hin as [Hin | [<- | []]].
    + left. now apply Hfull.
    + right. rewrite Hto, Hb. split; [discriminate|].
      destruct Hcap as [Hcap | Hlate].
      * split; [| exact Hcap]. destruct (scan_tasks s1); [congruence | cbn; lia].
      * exfalso. apply (late_not_within s1 Hlate). now apply Qlt_le_weak.
Qed.

End Capped.

Lemma ticking_monotone (step : Q) : 0 <= step -> monotone (ticking step).
Proof.
  intros Hstep m n Hle. unfold ticking.
  apply Qmult_le_compat_r; [| exact Hstep].
  rewrite <- Zle_Qle. lia.
Qed.

(** X27: when the clock never runs backwards, at most 30 probes are
    awaited together: every batch awaited inside the loop has exactly 30
    addresses and no timeout, and the last batch, the one awaited under a
    timeout, has between 1 and 29. *)
Theorem scan_batches_bounded
    (clock : nat -> Q) (_scan_ip : nat -> string -> Z -> option scan_result)
    (completes_within : Q -> list string -> bool)
    (local_ips : list string) (networks_to_scan : list (list string)) :
  monotone clock ->
  forall ev,
    In ev (trace (_discover_devices_http clock _scan_ip completes_within local_ips
                    networks_to_scan)) ->
    (timeout ev = None /\ List.length (batch ev) = 30%nat) \/
    (timeout ev <> None /\ (1 <= List.length (batch ev) < 30)%nat).
Proof.
  intros Hmono. now apply scan_batches_capped.
Qed.

Lemma scan_batches_bounded_witness :
  let s := _discover_devices_http (ticking 10) (fun _ _ _ => None)
             (fun _ _ => true) ["10.0.0.7"] [sample_hosts] in
  monotone (ticking 10) /\
  forall ev,
    In ev (trace s) ->
    (timeout ev = None /\ List.length (batch ev) = 30%nat) \/
    (timeout ev <> None /\ (1 <= List.length (batch ev) < 30)%nat).
Proof.
  intros s. split.
  - apply ticking_monotone. discriminate.
  - apply (scan_batches_bounded (ticking 10) (fun _ _ _ => None)
             (fun _ _ => true) ["10.0.0.7"] [sample_hosts]).
    apply ticking_monotone. discriminate.
Defined.

End ScanFacts.

(* ================================================================= *)
(** ** The networks a scan covers *)

Module NetworkFacts.
Import Py Builtins Networks.

Lemma fold_left_inv {S X : Type} (P : S -> Prop) (f : S -> X -> S) (l : list X) :
  (forall st x, In x l -> P st -> P (f st x)) ->
  forall st, P st -> P (fold_left f l st).
Proof.
  induction l as [|x rest IH]; intros Hf st Hst; cbn; [exact Hst|].
  apply IH.
  - intros st' x' Hin. apply Hf. now right.
  - apply Hf; [now left | exact Hst].
Qed.

Section Collect.

Variable network : Type.
Variable ip_network : string -> option network.
Variable network_str : network -> string.
Variable network_eqb : network -> network -> bool.
Variable hosts : network -> list string.

Lemma add_In (n m : network) (s : list network) :
  In m (add network network_eqb n s) -> m = n \/ In m s.
Proof.
  unfold add. destruct (existsb (network_eqb n) s); [now right|].
  intros H. apply in_app_or in H. destruct H as [H | [<- | []]]; auto.
Qed.

(** The addresses one ["ipv4"] list contributes. *)
Lemma scan_ip_infos_local (infos : list ip_info) :
  forall st,
    local_ips network
      (fold_left (scan_ip_info network ip_network network_str network_eqb) infos st)
    = (local_ips network st ++
       flat_map
         (fun info =>
            match address info with
            | Some address =>
                if String.eqb address "" || startswith address "127." then []
                else [address]
            | None => []
            end)
         infos)%list.
Proof.
  induction infos as [|info rest IH]; intros st; cbn [fold_left flat_map].
  - now rewrite app_nil_r.
  - rewrite IH. unfold scan_ip_info.
    destruct (address info) as [addr|]; [| reflexivity].
    destruct (String.eqb addr "" || startswith addr "127."); [reflexivity|].
    cbn [local_ips]. now rewrite <- app_assoc.
Qed.

Lemma scan_adapters_local (adapters : list adapter) :
  forall st,
    local_ips network
      (fold_left (scan_adapter network ip_network network_str network_eqb) adapters st)
    = (local_ips network st ++ own_addresses adapters)%list.
Proof.
  induction adapters as [|a rest IH]; intros st; cbn [fold_left own_addresses flat_map].
  - now rewrite app_nil_r.
  - rewrite IH. unfold scan_adapter.
    destruct (enabled a) as [[|]|]; cbn [app];
      try (rewrite scan_ip_infos_local, <- app_assoc; reflexivity).
    reflexivity.
Qed.

Lemma own_address (adapters : list adapter) (a : adapter) (info : ip_info)
    (addr : string) :
  In a adapters -> enabled a <> Some false -> In info (ipv4 a) ->
  address info = Some addr ->
  String.eqb addr "" || startswith addr "127." = false ->
  In addr (own_addresses adapters).
Proof.
  intros Ha Hen Hinfo Haddr Hkeep. unfold own_addresses.
  apply in_flat_map. exists a. split; [exact Ha|].
  assert (Hin : In addr
            (flat_map
               (fun info =>
                  match address info with
                  | Some address =>
                      if String.eqb address "" || startswith address "127." then []
                      else [address]
                  | None => []
                  end)
               (ipv4 a))).
  { apply in_flat_map. exists info. split; [exact Hinfo|].
    rewrite Haddr, Hkeep. now left. }
  destruct (enabled a) as [[|]|]; auto. congruence.
Qed.

Lemma scan_adapters_derived (adapters : list adapter) :
  forall n,
    In n (networks_to_scan network
            (scan_adapters network ip_network network_str network_eqb adapters)) ->
    derived network ip_network network_str adapters n.
Proof.
  unfold scan_adapters.
  apply (fold_left_inv
           (fun st => forall n, In n (networks_to_scan network st) ->
                                derived network ip_network network_str adapters n)).
  - intros st a Ha Hst. unfold scan_adapter.
    destruct (enabled a) as [[|]|] eqn:Hen; try exact Hst;
      (apply (fold_left_inv
                (fun st => forall n, In n (networks_to_scan network st) ->
                                     derived network ip_network network_str adapters n));
       [| exact Hst];
       intros st' info Hinfo Hst' n; unfold scan_ip_info;
       destruct (address info) as [addr|] eqn:Haddr; [| apply Hst'];
       destruct (String.eqb addr "" || startswith addr "127.") eqn:Hkeep;
         [apply Hst'|];
       cbn [networks_to_scan];
       destruct (ip_network _) as [network_obj|] eqn:Hnet; [| apply Hst'];
       destruct (startswith (network_str network_obj) "172.") eqn:H172;
         cbn [negb]; [apply Hst'|];
       intros Hin; apply add_In in Hin; destruct Hin as [-> | Hin];
         [| now apply Hst'];
       exists a, info, addr; repeat split; auto;
       [congruence | apply (own_address adapters a info); auto; congruence]).
  - intros n [].
Qed.

Lemma fallback_guessed (n : network) :
  In n (fallback_networks network ip_network network_eqb) ->
  guessed network ip_network n.
Proof.
  unfold fallback_networks.
  assert (H : forall texts st,
             (forall text, In text texts -> In text common_networks) ->
             (forall m, In m st -> guessed network ip_network m) ->
             forall m,
               In m (fold_left
                       (fun s text =>
                          match ip_network text with
                          | Some n => add network network_eqb n s
                          | None => s
                          end) texts st) ->
               guessed network ip_network m).
  { induction texts as [|text rest IH]; intros st Hsub Hst m; cbn [fold_left];
      [apply Hst|].
    apply IH.
    - intros t Ht. apply Hsub. now right.
    - intros m'. destruct (ip_network text) as [n'|] eqn:E; [| apply Hst].
      intros Hin. apply add_In in Hin. destruct Hin as [-> | Hin]; [| now apply Hst].
      exists text. split; [apply Hsub; now left | exact E]. }
  apply (H common_networks []); auto. intros m [].
Qed.

End Collect.

Lemma collect_local_ips
    (network : Type) (ip_network : string -> option network)
    (network_str : network -> string) (network_eqb : network -> network -> bool)
    (adapters : list adapter) :
  local_ips network (collect network ip_network network_str network_eqb adapters)
  = own_addresses adapters.
Proof.
  assert (Hlocal : local_ips network
                     (scan_adapters network ip_network network_str network_eqb adapters)
                   = own_addresses adapters).
  { unfold scan_adapters.
    now rewrite (scan_adapters_local network ip_network network_str network_eqb). }
  unfold collect.
  destruct (networks_to_scan network _); [| exact Hlocal].
  destruct (is_docker network _); exact Hlocal.
Qed.

(** X29: the scanner's own addresses are those of the adapters not
    disabled that are present, non-empty and do not start with "127.";
    each network to scan was computed from such an address and its prefix
    (24 when none is given) and does not print as a "172." network, or
    else docker was detected (an own address starts with "172."), no
    network was found from the adapters, and the network is one of the
    nine common home networks. *)
Theorem collected_networks
    (network : Type) (ip_network : string -> option network)
    (network_str : network -> string) (network_eqb : network -> network -> bool)
    (adapters : list adapter) :
  let st := collect network ip_network network_str network_eqb adapters in
  let found := networks_to_scan network
                 (scan_adapters network ip_network network_str network_eqb adapters) in
  local_ips network st = own_addresses adapters /\
  (forall n, In n (networks_to_scan network st) ->
     derived network ip_network network_str adapters n \/
     (found = [] /\
      existsb (fun addr => startswith addr "172.") (own_addresses adapters) = true /\
      guessed network ip_network n)) /\
  (found <> [] -> networks_to_scan network st = found).
Proof.
  intros st found.
  assert (Hlocal : local_ips network
                     (scan_adapters network ip_network network_str network_eqb adapters)
                   = own_addresses adapters).
  { unfold scan_adapters. now rewrite scan_adapters_local. }
  assert (Hdocker : is_docker network
                      (scan_adapters network ip_network network_str network_eqb adapters)
                    = existsb (fun addr => startswith addr "172.")
                        (own_addresses adapters)).
  { rewrite <- Hlocal. unfold scan_adapters.
    apply (fold_left_inv
             (fun st => is_docker network st
                        = existsb (fun addr => startswith addr "172.")
                            (local_ips network st))); [| reflexivity].
    intros st0 a _ Hst0. unfold scan_adapter.
    destruct (enabled a) as [[|]|]; try exact Hst0;
      (apply (fold_left_inv
                (fun st => is_docker network st
                           = existsb (fun addr => startswith addr "172.")
                               (local_ips network st))); [| exact Hst0];
       intros st1 info _ Hst1; unfold scan_ip_info;
       destruct (address info) as [addr|]; [| exact Hst1];
       destruct (String.eqb addr "" || startswith addr "127."); [exact Hst1|];
       cbn [is_docker local_ips]; rewrite existsb_app; cbn [existsb];
       rewrite orb_false_r, <- Hst1;
       destruct (startswith addr "172."); [now rewrite orb_true_r
                                          | now rewrite orb_false_r]). }
  subst st. unfold collect. fold found.
  destruct found as [|n0 rest] eqn:Ef.
  - destruct (is_docker network _) eqn:Ed; cbn [local_ips networks_to_scan].
    + split; [exact Hlocal|]. split; [| congruence].
      intros n Hin. right. split; [reflexivity|]. split; [now rewrite <- Hdocker|].
      now apply (fallback_guessed network ip_network network_eqb).
    + split; [exact Hlocal|]. split; [| congruence].
      intros n Hin. unfold found in Ef. rewrite Ef in Hin. destruct Hin.
  - split; [exact Hlocal|]. split; [| intros _; exact Ef].
    intros n Hin. left.
    apply (scan_adapters_derived network ip_network network_str network_eqb).
    exact Hin.
Qed.

(** X30: in a scan started from the adapters, every address probed is
    a host of one of the networks collected and is none of the scanner's
    own addresses. *)
Theorem discover_spares_own_addresses
    (network : Type) (ip_network : string -> option network)
    (network_str : network -> string) (network_eqb : network -> network -> bool)
    (hosts : network -> list string)
    (clock : nat -> Q)
    (_scan_ip : nat -> string -> Z -> option Discovery.scan_result)
    (completes_within : Q -> list string -> bool) (adapters : list adapter) :
  let st := collect network ip_network network_str network_eqb adapters in
  let s := discover network ip_network network_str network_eqb hosts clock
             _scan_ip completes_within adapters in
  forall ev ip_str,
    In ev (Discovery.trace s) -> In ip_str (Discovery.batch ev) ->
    (exists n, In n (networks_to_scan network st) /\ In ip_str (hosts n)) /\
    ~ In ip_str (own_addresses adapters).
Proof.
  intros st s ev ip Hev Hip.
  destruct (ScanFacts.scan_probes_candidates clock _scan_ip completes_within
              (local_ips network st) (map hosts (networks_to_scan network st))
              ev ip Hev Hip)
    as [(hs & Hhs & Hin) Hown].
  split.
  - apply in_map_iff in Hhs. destruct Hhs as (n & <- & Hn). eauto.
  - unfold st in Hown. now rewrite collect_local_ips in Hown.
Qed.

Lemma discover_spares_own_addresses_witness :
  let adapters :=
    [{| enabled := None;
        ipv4 := [{| address := Some "127.0.0.1"; network_prefix := Some 8 |}] |};
     {| enabled := Some true;
        ipv4 := [{| address := Some "10.0.0.7"; network_prefix := None |}] |}] in
  let ip_network := fun text : string => Some text in
  let network_str := fun n : string => n in
  let hosts := fun _ : string => Discovery.sample_hosts in
  let st := collect string ip_network network_str String.eqb adapters in
  let s := discover string ip_network network_str String.eqb hosts
             (Discovery.ticking 10) (fun _ _ _ => None) (fun _ _ => true) adapters in
  let ev := hd {| Discovery.reading := 0; Discovery.timeout := None;
                  Discovery.batch := [] |} (Discovery.trace s) in
  (In ev (Discovery.trace s) /\ In "10.0.0.1" (Discovery.batch ev)) /\
  (exists n, In n (networks_to_scan string st) /\ In "10.0.0.1" (hosts n)) /\
  ~ In "10.0.0.1" (own_addresses adapters).
Proof.
  intros adapters ip_network network_str hosts st s ev.
  assert (Hev : In ev (Discovery.trace s)) by (vm_compute; left; reflexivity).
  assert (Hip : In "10.0.0.1" (Discovery.batch ev))
    by (vm_compute; left; reflexivity).
  split; [split; assumption|].
  exact (discover_spares_own_addresses string ip_network network_str String.eqb
           hosts (Discovery.ticking 10) (fun _ _ _ => None) (fun _ _ => true)
           adapters ev "10.0.0.1" Hev Hip).
Defined.

End NetworkFacts.
